(** * get_calendar_details.py: the OAuth set-up script, embedded and verified

    The script reads [credentials.json], builds a [GoogleOAuthManager], runs
    [authenticate_via_local_server] for the calendar scope and dumps the
    returned structure to [user_token.json].

    The embedding has three layers:
    - the part of Python's [json] module the script calls with default
      arguments ([json.dump], [json.load]), over Python values;
    - a small state-and-exception monad for the process: the files it sees and
      the log of the calls it makes;
    - the script itself, statement for statement.

    Modelling boundaries: the interpreter's recursion limit and its optional
    limit on int/str conversion are not modelled; file contents are text (the
    codec of [open] is outside the model); paths name distinct files (no
    links); a value is a finite tree, so circular containers do not arise;
    the collaborator library is represented by the outcome of its calls, which
    neither read nor write the two files of the script. *)

From Stdlib Require Import ZArith NArith List String Ascii Bool Lia.
From Stdlib Require Import DecimalPos DecimalN DecimalFacts Sorted.
From Stdlib Require Floats.SpecFloat.
From stdpp Require Import gmap strings.

Local Open Scope N_scope.

(** ** Text *)

(** A Python [str] is a sequence of code points. *)
Abbreviation pystr := (list N).

(** A literal of the source, as a [str]. *)
Definition str (s : string) : pystr := map N_of_ascii (list_ascii_of_string s).

Definition QUOTE : N := 34.
Definition BACKSLASH : N := 92.

Definition is_digit (c : N) : bool := (48 <=? c) && (c <=? 57).

(** One hexadecimal digit, lower case, as ['{:x}'.format] prints it. *)
Definition hexdigit (d : N) : N := if d <? 10 then 48 + d else 87 + d.

(** ['{0:04x}'.format(n)]; every call site has [n < 0x10000]. *)
Definition format_04x (n : N) : pystr :=
  [hexdigit (n / 4096 mod 16); hexdigit (n / 256 mod 16);
   hexdigit (n / 16 mod 16); hexdigit (n mod 16)].

(** The value of a hexadecimal digit, either case. *)
Definition hexval (c : N) : option N :=
  if is_digit c then Some (c - 48)
  else if (97 <=? c) && (c <=? 102) then Some (c - 87)
  else if (65 <=? c) && (c <=? 70) then Some (c - 55)
  else None.

Definition hex4 (a b c d : N) : option N :=
  match hexval a, hexval b, hexval c, hexval d with
  | Some x, Some y, Some z, Some t => Some (((x * 16 + y) * 16 + z) * 16 + t)
  | _, _, _, _ => None
  end.

(** [int.__repr__]: decimal digits, with a sign for negative numbers. *)
Fixpoint uint_digits (u : Decimal.uint) : pystr :=
  match u with
  | Decimal.Nil => []
  | Decimal.D0 u => 48 :: uint_digits u
  | Decimal.D1 u => 49 :: uint_digits u
  | Decimal.D2 u => 50 :: uint_digits u
  | Decimal.D3 u => 51 :: uint_digits u
  | Decimal.D4 u => 52 :: uint_digits u
  | Decimal.D5 u => 53 :: uint_digits u
  | Decimal.D6 u => 54 :: uint_digits u
  | Decimal.D7 u => 55 :: uint_digits u
  | Decimal.D8 u => 56 :: uint_digits u
  | Decimal.D9 u => 57 :: uint_digits u
  end.

Definition _intstr (z : Z) : pystr :=
  match z with
  | Z0 => str "0"
  | Zpos p => uint_digits (Pos.to_uint p)
  | Zneg p => 45 :: uint_digits (Pos.to_uint p)
  end.

(** [int(s)] on a run of ASCII digits, most significant first. *)
Definition int_of_digits (ds : pystr) : N :=
  fold_left (fun acc c => acc * 10 + (c - 48)) ds 0.

(** ** Python values *)

(** A Python [float] is an IEEE 754 binary64 number. Its conversions from and
    to decimal text ([float(s)], [float.__repr__]) are correctly rounded
    algorithms of the interpreter; they are taken as given. *)
Abbreviation pyfloat := SpecFloat.spec_float.

Class FloatText := {
  float_of_str : pystr -> pyfloat;
  float_repr : pyfloat -> pystr;
}.

(** Two floats that are the same datum: same sign, mantissa and exponent. *)
Definition same_float (x y : pyfloat) : bool :=
  match x, y with
  | SpecFloat.S754_zero s, SpecFloat.S754_zero t
  | SpecFloat.S754_infinity s, SpecFloat.S754_infinity t => Bool.eqb s t
  | SpecFloat.S754_nan, SpecFloat.S754_nan => true
  | SpecFloat.S754_finite s m e, SpecFloat.S754_finite t n f =>
      Bool.eqb s t && (m =? n)%positive && (e =? f)%Z
  | _, _ => false
  end.

(** The values the script can hold. [PDict] keeps the entries in insertion
    order, which is the order [json.dump] iterates in. [PObject] stands for an
    instance of any other class (a [Credentials] object, a [datetime], ...). *)
Unset Elimination Schemes.
Inductive pyval :=
| PNone
| PBool (b : bool)
| PInt (z : Z)
| PFloat (x : pyfloat)
| PStr (s : pystr)
| PList (l : list pyval)
| PTuple (l : list pyval)
| PDict (d : list (pyval * pyval))
| PObject (cls : string).
Set Elimination Schemes.

(** The exceptions of the run. [LibraryError] is whatever the collaborator
    library raises (consent denied, network failure, port in use, ...). *)
Inductive exn :=
| FileNotFoundError
| UnsupportedOperation
| RecursionError
| JSONDecodeError (msg : string)
| TypeError (msg : string)
| LibraryError (name : string).

Inductive result (A : Type) :=
| Ok (a : A)
| Raise (e : exn).
Arguments Ok {A} a.
Arguments Raise {A} e.

(** ** json.encoder *)

(** [ESCAPE_DCT] and the [replace] closure of [py_encode_basestring_ascii]:
    the replacement of one character. [ESCAPE_ASCII] leaves the printable
    ASCII characters other than the quote and the backslash alone. *)
Definition replace (c : N) : pystr :=
  if c =? BACKSLASH then str "\\"
  else if c =? QUOTE then [BACKSLASH; QUOTE]
  else if (32 <=? c) && (c <=? 126) then [c]
  else if c =? 8 then str "\b"
  else if c =? 12 then str "\f"
  else if c =? 10 then str "\n"
  else if c =? 13 then str "\r"
  else if c =? 9 then str "\t"
  else if c <? 65536 then str "\u" ++ format_04x c
  else
    let n := c - 65536 in
    let s1 := N.lor 55296 (N.land (N.shiftr n 10) 1023) in
    let s2 := N.lor 56320 (N.land n 1023) in
    str "\u" ++ format_04x s1 ++ str "\u" ++ format_04x s2.

Definition encode_basestring_ascii (s : pystr) : pystr :=
  QUOTE :: flat_map replace s ++ [QUOTE].

(** [floatstr] of [JSONEncoder.iterencode], with [allow_nan=True]. *)
Definition floatstr `{FloatText} (o : pyfloat) : pystr :=
  match o with
  | SpecFloat.S754_nan => str "NaN"
  | SpecFloat.S754_infinity false => str "Infinity"
  | SpecFloat.S754_infinity true => str "-Infinity"
  | _ => float_repr o
  end.

(** A generator run to its end: the chunks it yielded, and the exception that
    ended it, if one did. *)
Definition gen : Type := list pystr * option exn.

Definition yield (chunk : pystr) : gen := ([chunk], None).
Definition gen_raise (e : exn) : gen := ([], Some e).
Definition gen_done : gen := ([], None).

Definition gen_then (g1 g2 : gen) : gen :=
  match g1 with
  | (c1, Some e) => (c1, Some e)
  | (c1, None) => (c1 ++ fst g2, snd g2)
  end.

Section iterencode.
Context `{FloatText}.

(** The values [_make_iterencode] writes without recursion. *)
Definition atom_text (value : pyval) : option pystr :=
  match value with
  | PStr s => Some (encode_basestring_ascii s)
  | PNone => Some (str "null")
  | PBool true => Some (str "true")
  | PBool false => Some (str "false")
  | PInt z => Some (_intstr z)
  | PFloat x => Some (floatstr x)
  | _ => None
  end.

(** The key conversions of [_iterencode_dict] ([skipkeys=False]). *)
Definition key_text (key : pyval) : result pystr :=
  match key with
  | PStr s => Ok s
  | PFloat x => Ok (floatstr x)
  | PBool true => Ok (str "true")
  | PBool false => Ok (str "false")
  | PNone => Ok (str "null")
  | PInt z => Ok (_intstr z)
  | _ => Raise (TypeError "keys must be str, int, float, bool or None")
  end.

Section containers.
(** [chunks_of value]: the generator the loops delegate to with
    [yield from] for a value that is not an atom. *)
Variable chunks_of : pyval -> gen.

Fixpoint _iterencode_list_loop (buf : pystr) (lst : list pyval) : gen :=
  match lst with
  | [] => yield (str "]")
  | value :: rest =>
      gen_then
        (match atom_text value with
         | Some text => yield (buf ++ text)
         | None => gen_then (yield buf) (chunks_of value)
         end)
        (_iterencode_list_loop (str ", ") rest)
  end.

Definition _iterencode_list (lst : list pyval) : gen :=
  match lst with
  | [] => yield (str "[]")
  | _ => _iterencode_list_loop (str "[") lst
  end.

Fixpoint _iterencode_dict_loop (first : bool) (items : list (pyval * pyval)) : gen :=
  match items with
  | [] => yield (str "}")
  | (key, value) :: rest =>
      match key_text key with
      | Raise e => gen_raise e
      | Ok key =>
          gen_then (if first then gen_done else yield (str ", "))
          (gen_then (yield (encode_basestring_ascii key))
          (gen_then (yield (str ": "))
          (gen_then
             (match atom_text value with
              | Some text => yield text
              | None => chunks_of value
              end)
             (_iterencode_dict_loop false rest))))
      end
  end.

Definition _iterencode_dict (dct : list (pyval * pyval)) : gen :=
  match dct with
  | [] => yield (str "{}")
  | _ => gen_then (yield (str "{")) (_iterencode_dict_loop true dct)
  end.
End containers.

Fixpoint _iterencode (o : pyval) : gen :=
  match o with
  | PStr s => yield (encode_basestring_ascii s)
  | PNone => yield (str "null")
  | PBool true => yield (str "true")
  | PBool false => yield (str "false")
  | PInt z => yield (_intstr z)
  | PFloat x => yield (floatstr x)
  | PList lst | PTuple lst => _iterencode_list _iterencode lst
  | PDict dct => _iterencode_dict _iterencode dct
  | PObject cls => gen_raise (TypeError "Object is not JSON serializable")
  end.

(** [json.dumps]: the chunks joined, when the generator finishes. *)
Definition json_dumps (obj : pyval) : result pystr :=
  match _iterencode obj with
  | (chunks, None) => Ok (concat chunks)
  | (_, Some e) => Raise e
  end.
End iterencode.

(** ** json.decoder and json.scanner *)

(** [WHITESPACE_STR] *)
Definition is_ws (c : N) : bool :=
  (c =? 32) || (c =? 9) || (c =? 10) || (c =? 13).

(** [WHITESPACE.match(s, end).end()]: what is left after the blanks. *)
Fixpoint skip_ws (s : pystr) : pystr :=
  match s with
  | c :: s' => if is_ws c then skip_ws s' else s
  | [] => []
  end.

(** [s[idx:idx + len(prefix)] == prefix], giving what follows the prefix. *)
Fixpoint strip_prefix (prefix s : pystr) : option pystr :=
  match prefix, s with
  | [], _ => Some s
  | p :: prefix', c :: s' => if p =? c then strip_prefix prefix' s' else None
  | _ :: _, [] => None
  end.

(** The [BACKSLASH] table of the decoder. *)
Definition backslash (esc : N) : option N :=
  if esc =? QUOTE then Some QUOTE
  else if esc =? BACKSLASH then Some BACKSLASH
  else if esc =? 47 then Some 47
  else if esc =? 98 then Some 8
  else if esc =? 102 then Some 12
  else if esc =? 110 then Some 10
  else if esc =? 114 then Some 13
  else if esc =? 116 then Some 9
  else None.

Definition is_high_surrogate (uni : N) : bool := (55296 <=? uni) && (uni <=? 56319).
Definition is_low_surrogate (uni : N) : bool := (56320 <=? uni) && (uni <=? 57343).

(** [scanstring] with [strict=True], entered after the opening quote;
    [chunks] holds what was decoded so far, last character first. The result
    is the decoded string and the text after the closing quote. *)
Fixpoint scanstring (s : pystr) (chunks : pystr) : result (pystr * pystr) :=
  match s with
  | [] => Raise (JSONDecodeError "Unterminated string starting at")
  | terminator :: s1 =>
      if terminator =? QUOTE then Ok (rev chunks, s1)
      else if terminator =? BACKSLASH then
        match s1 with
        | [] => Raise (JSONDecodeError "Unterminated string starting at")
        | esc :: s2 =>
            if negb (esc =? 117) then
              match backslash esc with
              | Some char => scanstring s2 (char :: chunks)
              | None => Raise (JSONDecodeError "Invalid \escape")
              end
            else
              match s2 with
              | h1 :: h2 :: h3 :: h4 :: s3 =>
                  match hex4 h1 h2 h3 h4 with
                  | None => Raise (JSONDecodeError "Invalid \uXXXX escape")
                  | Some uni =>
                      if is_high_surrogate uni then
                        match s3 with
                        | b :: u :: s4 =>
                            if (b =? BACKSLASH) && (u =? 117) then
                              match s4 with
                              | g1 :: g2 :: g3 :: g4 :: s5 =>
                                  match hex4 g1 g2 g3 g4 with
                                  | None => Raise (JSONDecodeError "Invalid \uXXXX escape")
                                  | Some uni2 =>
                                      if is_low_surrogate uni2 then
                                        scanstring s5
                                          (65536 + N.lor (N.shiftl (uni - 55296) 10) (uni2 - 56320)
                                           :: chunks)
                                      else scanstring s3 (uni :: chunks)
                                  end
                              | _ => Raise (JSONDecodeError "Invalid \uXXXX escape")
                              end
                            else scanstring s3 (uni :: chunks)
                        | _ => scanstring s3 (uni :: chunks)
                        end
                      else scanstring s3 (uni :: chunks)
                  end
              | _ => Raise (JSONDecodeError "Invalid \uXXXX escape")
              end
        end
      else if terminator <? 32 then Raise (JSONDecodeError "Invalid control character at")
      else scanstring s1 (terminator :: chunks)
  end.

(** [NUMBER_RE], piece by piece, on ASCII digits: an optional minus sign and
    either a single zero or a run of digits not starting with zero; then,
    optionally, a dot and digits; then, optionally, an exponent mark, a sign
    and digits. Each piece gives the text it matched and what follows. *)
Fixpoint span_digits (s : pystr) : pystr * pystr :=
  match s with
  | c :: s' => if is_digit c then let (ds, r) := span_digits s' in (c :: ds, r) else ([], s)
  | [] => ([], [])
  end.

Definition match_integer (s : pystr) : option (pystr * pystr) :=
  let (sign, s1) :=
    match s with
    | c :: s' => if c =? 45 then ([45], s') else ([], s)
    | [] => ([], s)
    end in
  match s1 with
  | c :: s2 =>
      if c =? 48 then Some (sign ++ [48], s2)
      else if is_digit c then let (ds, r) := span_digits s2 in Some (sign ++ c :: ds, r)
      else None
  | [] => None
  end.

Definition match_frac (s : pystr) : pystr * pystr :=
  match s with
  | c :: s' =>
      if c =? 46 then
        match span_digits s' with
        | ([], _) => ([], s)
        | (ds, r) => (46 :: ds, r)
        end
      else ([], s)
  | [] => ([], s)
  end.

Definition match_exp (s : pystr) : pystr * pystr :=
  match s with
  | c :: s1 =>
      if (c =? 101) || (c =? 69) then
        let (sign, s2) :=
          match s1 with
          | d :: s' => if (d =? 45) || (d =? 43) then ([d], s') else ([], s1)
          | [] => ([], s1)
          end in
        match span_digits s2 with
        | ([], _) => ([], s)
        | (ds, r) => (c :: sign ++ ds, r)
        end
      else ([], s)
  | [] => ([], s)
  end.

(** [match_number]: the three groups and the rest of the text. *)
Definition match_number (s : pystr) : option (pystr * pystr * pystr * pystr) :=
  match match_integer s with
  | None => None
  | Some (integer, s1) =>
      let (frac, s2) := match_frac s1 in
      let (exp, s3) := match_exp s2 in
      Some (integer, frac, exp, s3)
  end.

(** [int(integer)] on a match of the first group. *)
Definition parse_int (integer : pystr) : Z :=
  match integer with
  | c :: ds => if c =? 45 then (- Z.of_N (int_of_digits ds))%Z else Z.of_N (int_of_digits integer)
  | [] => 0%Z
  end.

(** [dict(pairs)]: a later pair with a key already present replaces the value
    and keeps the place of the first. *)
Fixpoint dict_setitem (d : list (pystr * pyval)) (key : pystr) (value : pyval)
  : list (pystr * pyval) :=
  match d with
  | [] => [(key, value)]
  | (k, v) :: d' =>
      if decide (k = key) then (k, value) :: d' else (k, v) :: dict_setitem d' key value
  end.

Definition dict_of_pairs (pairs : list (pystr * pyval)) : list (pyval * pyval) :=
  map (fun kv => (PStr (fst kv), snd kv))
      (fold_left (fun d kv => dict_setitem d (fst kv) (snd kv)) pairs []).

Section scanner.
Context `{FloatText}.

(** What a scanning function gives: [None] when the fuel of the recursion
    ran out, else the value with the text after it, or the exception. *)
Definition scanned : Type := option (result (pyval * pystr)).

(** [JSONArray] and [JSONObject] take [scan_once] as an argument, and the
    scanner takes them from its context, as in the source. Each [while True]
    loop is given as one round, with the continuation of the loop. *)
Section rounds.
Variable scan_once : pystr -> scanned.

(** One round of the loop of [JSONArray], entered at a value; [values] is
    the list built so far, last value first. *)
Definition JSONArray_round (again : pystr -> list pyval -> scanned)
    (s : pystr) (values : list pyval) : scanned :=
  match scan_once s with
  | None => None
  | Some (Raise e) => Some (Raise e)
  | Some (Ok (value, s1)) =>
      match skip_ws s1 with
      | nextchar :: s2 =>
          if nextchar =? 93 then Some (Ok (PList (rev (value :: values)), s2))
          else if nextchar =? 44 then again (skip_ws s2) (value :: values)
          else Some (Raise (JSONDecodeError "Expecting ',' delimiter"))
      | [] => Some (Raise (JSONDecodeError "Expecting ',' delimiter"))
      end
  end.

(** One round of the loop of [JSONObject], entered after the opening
    quote of a key; [pairs] is the list built so far, last pair first. *)
Definition JSONObject_round (again : pystr -> list (pystr * pyval) -> scanned)
    (s : pystr) (pairs : list (pystr * pyval)) : scanned :=
  match scanstring s [] with
  | Raise e => Some (Raise e)
  | Ok (key, s1) =>
      match skip_ws s1 with
      | colon :: s2 =>
          if colon =? 58 then
            match scan_once (skip_ws s2) with
            | None => None
            | Some (Raise e) => Some (Raise e)
            | Some (Ok (value, s3)) =>
                match skip_ws s3 with
                | nextchar :: s4 =>
                    if nextchar =? 125 then
                      Some (Ok (PDict (dict_of_pairs (rev ((key, value) :: pairs))), s4))
                    else if nextchar =? 44 then
                      match skip_ws s4 with
                      | q :: s5 =>
                          if q =? QUOTE then again s5 ((key, value) :: pairs)
                          else Some (Raise (JSONDecodeError
                                 "Expecting property name enclosed in double quotes"))
                      | [] => Some (Raise (JSONDecodeError
                                 "Expecting property name enclosed in double quotes"))
                      end
                    else Some (Raise (JSONDecodeError "Expecting ',' delimiter"))
                | [] => Some (Raise (JSONDecodeError "Expecting ',' delimiter"))
                end
            end
          else Some (Raise (JSONDecodeError "Expecting ':' delimiter"))
      | [] => Some (Raise (JSONDecodeError "Expecting ':' delimiter"))
      end
  end.
End rounds.

(** [JSONArray], entered after the bracket: the empty array, or the loop. *)
Definition JSONArray (loop : pystr -> list pyval -> scanned) (s : pystr) : scanned :=
  match skip_ws s with
  | c :: rest => if c =? 93 then Some (Ok (PList [], rest)) else loop (c :: rest) []
  | [] => loop [] []
  end.

(** [JSONObject], entered after the brace: the empty object, or the loop. *)
Definition JSONObject (loop : pystr -> list (pystr * pyval) -> scanned) (s : pystr)
  : scanned :=
  match skip_ws s with
  | c :: rest =>
      if c =? 125 then Some (Ok (PDict [], rest))
      else if c =? QUOTE then loop rest []
      else Some (Raise (JSONDecodeError "Expecting property name enclosed in double quotes"))
  | [] => Some (Raise (JSONDecodeError "Expecting property name enclosed in double quotes"))
  end.

(** The body of [_scan_once] of [py_make_scanner]. [StopIteration] is
    reported as the [JSONDecodeError] every caller turns it into. *)
Definition scan_body (parse_object parse_array : pystr -> scanned) (string : pystr)
  : scanned :=
  match string with
  | [] => Some (Raise (JSONDecodeError "Expecting value"))
  | nextchar :: tail =>
      if nextchar =? QUOTE then
        Some (match scanstring tail [] with
              | Ok (s, rest) => Ok (PStr s, rest)
              | Raise e => Raise e
              end)
      else if nextchar =? 123 then parse_object tail
      else if nextchar =? 91 then parse_array tail
      else
        match strip_prefix (str "null") string with
        | Some rest => Some (Ok (PNone, rest))
        | None =>
        match strip_prefix (str "true") string with
        | Some rest => Some (Ok (PBool true, rest))
        | None =>
        match strip_prefix (str "false") string with
        | Some rest => Some (Ok (PBool false, rest))
        | None =>
        match match_number string with
        | Some (integer, frac, exp, rest) =>
            match frac, exp with
            | [], [] => Some (Ok (PInt (parse_int integer), rest))
            | _, _ => Some (Ok (PFloat (float_of_str (integer ++ frac ++ exp)), rest))
            end
        | None =>
        match strip_prefix (str "NaN") string with
        | Some rest => Some (Ok (PFloat SpecFloat.S754_nan, rest))
        | None =>
        match strip_prefix (str "Infinity") string with
        | Some rest => Some (Ok (PFloat (SpecFloat.S754_infinity false), rest))
        | None =>
        match strip_prefix (str "-Infinity") string with
        | Some rest => Some (Ok (PFloat (SpecFloat.S754_infinity true), rest))
        | None => Some (Raise (JSONDecodeError "Expecting value"))
        end end end end end end end
  end.

(** The scanner. The functions recurse on the text that is left; [fuel]
    bounds the calls ([scan_once_fuel] below shows that [raw_decode] always
    passes enough). *)
Fixpoint _scan_once (fuel : nat) (string : pystr) : scanned :=
  match fuel with
  | O => None
  | S fuel =>
      scan_body (JSONObject (JSONObject_loop fuel)) (JSONArray (JSONArray_loop fuel)) string
  end

with JSONArray_loop (fuel : nat) (s : pystr) (values : list pyval) : scanned :=
  match fuel with
  | O => None
  | S fuel => JSONArray_round (_scan_once fuel) (JSONArray_loop fuel) s values
  end

with JSONObject_loop (fuel : nat) (s : pystr) (pairs : list (pystr * pyval)) : scanned :=
  match fuel with
  | O => None
  | S fuel => JSONObject_round (_scan_once fuel) (JSONObject_loop fuel) s pairs
  end.

(** [JSONDecoder.raw_decode] *)
Definition raw_decode (s : pystr) : scanned :=
  _scan_once (2 * length s + 1) s.

(** [JSONDecoder.decode] *)
Definition decode (s : pystr) : option (result pyval) :=
  match raw_decode (skip_ws s) with
  | None => None
  | Some (Raise e) => Some (Raise e)
  | Some (Ok (obj, rest)) =>
      match skip_ws rest with
      | [] => Some (Ok obj)
      | _ => Some (Raise (JSONDecodeError "Extra data"))
      end
  end.

(** [json.loads] on a [str], default arguments. The recursion limit of the
    interpreter is not modelled: [RecursionError] stands for the fuel
    running out, which [decode_total] below shows never happens. *)
Definition json_loads (s : pystr) : result pyval :=
  match s with
  | c :: _ =>
      if c =? 65279 then Raise (JSONDecodeError "Unexpected UTF-8 BOM")
      else default (Raise RecursionError) (decode s)
  | [] => default (Raise RecursionError) (decode s)
  end.
End scanner.

(** ** The process: files and calls *)

(** The modes the script opens files in: ['r'] and ['w']. *)
Inductive mode := R | W.

(** A file object: the path it was opened on and its mode. *)
Record file := { name : string; fmode : mode }.

(** Modelled from the spec: the OAuth manager object of the collaborator
    library [google_client.auth], which is not part of the repository. The
    spec gives its constructor as taking "a client-secret structure and an
    optional redirect URI (default http://localhost:8080)". *)
Record OAuthManager := {
  client_secrets_dict : pyval;
  redirect_uri : pystr;
}.

Definition DEFAULT_REDIRECT_URI : pystr := str "http://localhost:8080".

Section process.
Context `{FloatText}.

(** The [Scopes] enumeration of [google_client.auth], of which the script
    uses the member [CALENDAR]. *)
Context {Scopes : Type} (CALENDAR : Scopes).

(** What the process does, in order: the operations on files, and the calls
    into the library with the way each one ends. *)
Inductive event :=
| EvOpen (path : string) (m : mode)
| EvRead (path : string)
| EvWrite (path : string) (chunk : pystr)
| EvClose (path : string)
| EvInit (secrets : pyval) (redirect : option pystr)
| EvInitRaised (e : exn)
| EvManager (manager : OAuthManager)
| EvAuthenticate (manager : OAuthManager) (scopes : list Scopes)
| EvAuthRaised (e : exn)
| EvReturned (user_info : pyval).

(** The outcome of the library's calls: whether the constructor rejects its
    arguments, and how the interactive flow ends. *)
Record World := {
  init_check : pyval -> pystr -> option exn;
  local_server_flow : OAuthManager -> list Scopes -> result pyval;
}.

Record process := {
  files : gmap string pystr;
  log : list event;
}.

Definition M (A : Type) : Type := process -> process * result A.

Definition ret {A} (a : A) : M A := fun p => (p, Ok a).
Definition raise {A} (e : exn) : M A := fun p => (p, Raise e).
Definition bind {A B} (m : M A) (k : A -> M B) : M B := fun p =>
  match m p with
  | (p', Ok a) => k a p'
  | (p', Raise e) => (p', Raise e)
  end.

(** [try: body finally: cleanup] *)
Definition finally {A} (body : M A) (cleanup : M unit) : M A := fun p =>
  let (p1, r) := body p in
  match cleanup p1 with
  | (p2, Ok _) => (p2, r)
  | (p2, Raise e) => (p2, Raise e)
  end.

Definition emit (ev : event) : M unit := fun p =>
  ({| files := files p; log := log p ++ [ev] |}, Ok tt).
End process.

Declare Scope script_scope.
Delimit Scope script_scope with script.
Notation "x <- m ;; k" := (bind m (fun x => k))
  (at level 100, m at next level, right associativity) : script_scope.
Notation "m ;; k" := (bind m (fun _ => k))
  (at level 100, right associativity) : script_scope.

Section script.
Context `{FloatText}.
Context {Scopes : Type} (CALENDAR : Scopes).
Local Open Scope script_scope.

Abbreviation M := (@M Scopes).
Abbreviation World := (@World Scopes).

(** [open(path, mode)]: reading needs the file to exist; writing creates it
    or truncates it at once. *)
Definition open (path : string) (m : mode) : M file := fun p =>
  match m with
  | R =>
      match files p !! path with
      | Some _ => ({| files := files p; log := log p ++ [EvOpen path R] |},
                   Ok {| name := path; fmode := R |})
      | None => (p, Raise FileNotFoundError)
      end
  | W => ({| files := <[path := []]> (files p); log := log p ++ [EvOpen path W] |},
          Ok {| name := path; fmode := W |})
  end.

(** [f.read()] *)
Definition read (f : file) : M pystr := fun p =>
  match fmode f, files p !! name f with
  | R, Some content =>
      ({| files := files p; log := log p ++ [EvRead (name f)] |}, Ok content)
  | _, _ => (p, Raise UnsupportedOperation)
  end.

(** [f.write(chunk)]: the text is added at the end of the file. *)
Definition write (f : file) (chunk : pystr) : M unit := fun p =>
  match fmode f with
  | W =>
      ({| files := <[name f := default [] (files p !! name f) ++ chunk]> (files p);
          log := log p ++ [EvWrite (name f) chunk] |}, Ok tt)
  | R => (p, Raise UnsupportedOperation)
  end.

Definition close (f : file) : M unit := emit (EvClose (name f)).

(** [with open(path, mode) as f: body] *)
Definition with_open {A} (path : string) (m : mode) (body : file -> M A) : M A :=
  f <- open path m ;;
  finally (body f) (close f).

(** [json.load(fp)] *)
Definition json_load (fp : file) : M pyval :=
  s <- read fp ;;
  match json_loads s with
  | Ok obj => ret obj
  | Raise e => raise e
  end.

(** [for chunk in iterable: fp.write(chunk)] *)
Fixpoint write_chunks (fp : file) (chunks : list pystr) : M unit :=
  match chunks with
  | [] => ret tt
  | chunk :: chunks' => write fp chunk ;; write_chunks fp chunks'
  end.

(** [json.dump(obj, fp)]: the chunks are written as the encoder yields
    them; an exception of the encoder comes after the chunks before it. *)
Definition json_dump (obj : pyval) (fp : file) : M unit :=
  let (chunks, stop) := _iterencode obj in
  write_chunks fp chunks ;;
  match stop with
  | None => ret tt
  | Some e => raise e
  end.

(** Modelled from the spec: the constructor [GoogleOAuthManager] of the
    collaborator library, with the default of its optional redirect URI. *)
Definition GoogleOAuthManager (w : World) (client_secrets_dict : pyval)
    (redirect_uri : option pystr) : M OAuthManager :=
  emit (EvInit client_secrets_dict redirect_uri) ;;
  let uri := default DEFAULT_REDIRECT_URI redirect_uri in
  match init_check w client_secrets_dict uri with
  | Some e => emit (EvInitRaised e) ;; raise e
  | None =>
      let manager := {| client_secrets_dict := client_secrets_dict; redirect_uri := uri |} in
      emit (EvManager manager) ;; ret manager
  end.

(** The call [oauth_manager.authenticate_via_local_server(scopes=...)]: it
    returns the credential structure or raises. *)
Definition authenticate_via_local_server (w : World) (oauth_manager : OAuthManager)
    (scopes : list Scopes) : M pyval :=
  emit (EvAuthenticate oauth_manager scopes) ;;
  match local_server_flow w oauth_manager scopes with
  | Ok user_info => emit (EvReturned user_info) ;; ret user_info
  | Raise e => emit (EvAuthRaised e) ;; raise e
  end.

(** The script. *)
Definition get_calendar_details (w : World) : M unit :=
  client_secrets <- with_open "credentials.json" R json_load ;;
  oauth_manager <- GoogleOAuthManager w client_secrets None ;;
  user_info <- authenticate_via_local_server w oauth_manager [CALENDAR] ;;
  with_open "user_token.json" W (json_dump user_info).

(** One run of the script on a file system. *)
Definition run (w : World) (fs : gmap string pystr) : process * result unit :=
  get_calendar_details w {| files := fs; log := [] |}.
End script.

(** ** Predicates of the statements *)

(** The two paths of the script. *)
Definition CREDENTIALS : string := "credentials.json".
Definition USER_TOKEN : string := "user_token.json".

(** A code point, as a [str] holds them: surrogates included. *)
Definition is_code_point (c : N) : bool := c <? 1114112.

(** No high surrogate is directly followed by a low one. The encoder writes
    such a pair as two escapes, which the decoder reads as one character. *)
Fixpoint no_surrogate_pair (s : pystr) : bool :=
  match s with
  | c :: s' =>
      match s' with
      | c' :: _ => negb (is_high_surrogate c && is_low_surrogate c')
      | [] => true
      end && no_surrogate_pair s'
  | [] => true
  end.

(** A string the decoder restores from what the encoder writes for it. *)
Definition str_restored (s : pystr) : bool :=
  forallb is_code_point s && no_surrogate_pair s.

(** The entries of a dict whose keys are strings. *)
Fixpoint str_pairs (d : list (pyval * pyval)) : list (pystr * pyval) :=
  match d with
  | [] => []
  | (PStr k, v) :: d' => (k, v) :: str_pairs d'
  | _ :: d' => str_pairs d'
  end.

Section restored.
Context `{FloatText}.

(** A float the decoder restores from what the encoder writes for it: an
    infinity, or a float whose [repr] is, as a whole, a JSON number with a
    fraction or an exponent that [float] turns into the same float again
    (which the interpreter ensures of every finite float). A [NaN] is read
    back as a [NaN], but a [NaN] is equal to no float. *)
Definition float_restored (x : pyfloat) : bool :=
  match x with
  | SpecFloat.S754_nan => false
  | SpecFloat.S754_infinity _ => true
  | _ =>
      match match_number (float_repr x) with
      | Some (integer, frac, exp, []) =>
          match frac, exp with
          | [], [] => false
          | _, _ => same_float (float_of_str (integer ++ frac ++ exp)) x
          end
      | _ => false
      end
  end.

(** The values [json.load] restores from what [json.dump] writes: [None],
    booleans, integers, restored floats, restored strings, lists, and dicts
    whose keys are restored strings. In a Python dict the keys are distinct;
    the last conjunct says so of the association list. *)
Fixpoint json_native (v : pyval) : bool :=
  match v with
  | PNone | PBool _ | PInt _ => true
  | PFloat x => float_restored x
  | PStr s => str_restored s
  | PList l => forallb json_native l
  | PDict d =>
      forallb (fun kv => match fst kv with
                         | PStr k => str_restored k
                         | _ => false
                         end && json_native (snd kv)) d
      && bool_decide (NoDup (map fst (str_pairs d)))
  | PTuple _ | PObject _ => false
  end.
End restored.

Section order.
Context {Scopes : Type}.


(** An event that changes a file. *)
Definition touches (path : string) (ev : @event Scopes) : Prop :=
  match ev with
  | EvOpen p W | EvWrite p _ => p = path
  | _ => False
  end.




(** The manager the script builds from the parsed secrets. *)
Definition manager_of (secrets : pyval) : OAuthManager :=
  {| client_secrets_dict := secrets; redirect_uri := DEFAULT_REDIRECT_URI |}.

(** The events of the first and of the last step when they run to the end. *)
Definition load_log : list (@event Scopes) :=
  [EvOpen CREDENTIALS R; EvRead CREDENTIALS; EvClose CREDENTIALS].

Definition dump_log (chunks : list pystr) : list (@event Scopes) :=
  EvOpen USER_TOKEN W :: map (EvWrite USER_TOKEN) chunks ++ [EvClose USER_TOKEN].
End order.

(** ** Valid JSON *)

(** Modelled from the spec: "valid JSON" is read as the grammar of a JSON
    text (RFC 8259): blanks, a value, blanks, where a value is a string, a
    number, an object, an array, or one of [null], [true], [false]. Each
    function gives the text after what it recognised. *)

(** A string, entered after the opening quotation mark: unescaped
    characters from U+0020 on, and the escapes of the quotation mark, the
    backslash, the slash, [b], [f], [n], [r], [t] and [u] with four
    hexadecimal digits. *)
Fixpoint rfc8259_string (s : pystr) : option pystr :=
  match s with
  | [] => None
  | c :: s1 =>
      if c =? QUOTE then Some s1
      else if c =? BACKSLASH then
        match s1 with
        | esc :: s2 =>
            if esc =? 117 then
              match s2 with
              | h1 :: h2 :: h3 :: h4 :: s3 =>
                  match hex4 h1 h2 h3 h4 with
                  | Some _ => rfc8259_string s3
                  | None => None
                  end
              | _ => None
              end
            else
              match backslash esc with
              | Some _ => rfc8259_string s2
              | None => None
              end
        | [] => None
        end
      else if c <? 32 then None
      else rfc8259_string s1
  end.

Section grammar.
(** Whether the literals [NaN], [Infinity] and [-Infinity] count as values.
    They are no JSON; [json.load] takes them. *)
Variable constants : bool.

Section rounds.
Variable value : pystr -> option pystr.

(** A value of an array and what follows it: the closing bracket, or a
    comma and the values after it. *)
Definition rfc8259_elements_round (again : pystr -> option pystr) (s : pystr)
  : option pystr :=
  match value s with
  | None => None
  | Some s1 =>
      match skip_ws s1 with
      | c :: s2 =>
          if c =? 93 then Some s2
          else if c =? 44 then again (skip_ws s2)
          else None
      | [] => None
      end
  end.

(** A member of an object, entered after the opening quotation mark of its
    name, and what follows it: the closing brace, or a comma and the
    members after it. *)
Definition rfc8259_members_round (again : pystr -> option pystr) (s : pystr)
  : option pystr :=
  match rfc8259_string s with
  | None => None
  | Some s1 =>
      match skip_ws s1 with
      | colon :: s2 =>
          if colon =? 58 then
            match value (skip_ws s2) with
            | None => None
            | Some s3 =>
                match skip_ws s3 with
                | c :: s4 =>
                    if c =? 125 then Some s4
                    else if c =? 44 then
                      match skip_ws s4 with
                      | q :: s5 => if q =? QUOTE then again s5 else None
                      | [] => None
                      end
                    else None
                | [] => None
                end
            end
          else None
      | [] => None
      end
  end.
End rounds.

(** An array, entered after the opening bracket. *)
Definition rfc8259_array (elements : pystr -> option pystr) (s : pystr) : option pystr :=
  match skip_ws s with
  | c :: rest => if c =? 93 then Some rest else elements (c :: rest)
  | [] => None
  end.

(** An object, entered after the opening brace. *)
Definition rfc8259_object (members : pystr -> option pystr) (s : pystr) : option pystr :=
  match skip_ws s with
  | c :: rest =>
      if c =? 125 then Some rest
      else if c =? QUOTE then members rest
      else None
  | [] => None
  end.

(** A value. The number pattern of the decoder is the number of the
    grammar: a minus sign, an integer without leading zero, a fraction, an
    exponent. *)
Definition rfc8259_body (object array : pystr -> option pystr) (s : pystr)
  : option pystr :=
  match s with
  | [] => None
  | c :: tail =>
      if c =? QUOTE then rfc8259_string tail
      else if c =? 123 then object tail
      else if c =? 91 then array tail
      else
        match strip_prefix (str "null") s with
        | Some rest => Some rest
        | None =>
        match strip_prefix (str "true") s with
        | Some rest => Some rest
        | None =>
        match strip_prefix (str "false") s with
        | Some rest => Some rest
        | None =>
        match match_number s with
        | Some (_, _, _, rest) => Some rest
        | None =>
            if constants then
              match strip_prefix (str "NaN") s with
              | Some rest => Some rest
              | None =>
              match strip_prefix (str "Infinity") s with
              | Some rest => Some rest
              | None => strip_prefix (str "-Infinity") s
              end end
            else None
        end end end end
  end.

(** Values nest; [fuel] bounds the nesting and the length of the arrays and
    objects. *)
Fixpoint rfc8259_value (fuel : nat) (s : pystr) : option pystr :=
  match fuel with
  | O => None
  | S fuel =>
      rfc8259_body (rfc8259_object (rfc8259_members fuel))
                   (rfc8259_array (rfc8259_elements fuel)) s
  end

with rfc8259_elements (fuel : nat) (s : pystr) : option pystr :=
  match fuel with
  | O => None
  | S fuel => rfc8259_elements_round (rfc8259_value fuel) (rfc8259_elements fuel) s
  end

with rfc8259_members (fuel : nat) (s : pystr) : option pystr :=
  match fuel with
  | O => None
  | S fuel => rfc8259_members_round (rfc8259_value fuel) (rfc8259_members fuel) s
  end.

(** A JSON text: blanks, a value, blanks. *)
Definition json_text (s : pystr) : Prop :=
  exists fuel rest, rfc8259_value fuel (skip_ws s) = Some rest /\ skip_ws rest = [].
End grammar.

(** Valid JSON: the grammar without the three literals. *)
Definition valid_json (s : pystr) : Prop := json_text false s.

(** What [json.load] accepts: the grammar with the three literals. *)
Definition loadable_json (s : pystr) : Prop := json_text true s.

(** ** Equality of values *)

(** The numbers, which [==] compares by value across [bool], [int] and
    [float]. *)
Inductive number :=
| NumInt (z : Z)
| NumFloat (x : pyfloat).

Definition number_of (v : pyval) : option number :=
  match v with
  | PBool b => Some (NumInt (if b then 1 else 0))
  | PInt z => Some (NumInt z)
  | PFloat x => Some (NumFloat x)
  | _ => None
  end.

(** [x == z] for a float and an int: the comparison is exact. *)
Definition float_eq_int (x : pyfloat) (z : Z) : bool :=
  match x with
  | SpecFloat.S754_zero _ => (z =? 0)%Z
  | SpecFloat.S754_finite s m e =>
      let sm := if s then Zneg m else Zpos m in
      if (0 <=? e)%Z then (z =? sm * 2 ^ e)%Z else (z * 2 ^ (- e) =? sm)%Z
  | _ => false
  end.

Definition number_eq (a b : number) : bool :=
  match a, b with
  | NumInt x, NumInt y => (x =? y)%Z
  | NumFloat x, NumFloat y => SpecFloat.SFeqb x y
  | NumFloat x, NumInt z | NumInt z, NumFloat x => float_eq_int x z
  end.

(** [a == b]. Numbers are equal by value, so that [1 == True] and a [NaN]
    is equal to nothing; lists and tuples are equal item by item, each to
    its own kind; dicts are equal when they have as many entries and every
    key of one is a key of the other with an equal value, in whatever order
    the entries were inserted. Instances of other classes are compared by
    identity unless their class says otherwise: two of them are taken as
    different. *)
Fixpoint py_eq (a b : pyval) {struct a} : bool :=
  match number_of a, number_of b with
  | Some x, Some y => number_eq x y
  | _, _ =>
      match a, b with
      | PNone, PNone => true
      | PStr s, PStr t => bool_decide (s = t)
      | PList l, PList m | PTuple l, PTuple m =>
          (fix items (l m : list pyval) : bool :=
             match l, m with
             | [], [] => true
             | x :: l', y :: m' => py_eq x y && items l' m'
             | _, _ => false
             end) l m
      | PDict d, PDict d' =>
          (length d =? length d')%nat
          && forallb (fun kv =>
               existsb (fun kv' => py_eq (fst kv) (fst kv') && py_eq (snd kv) (snd kv')) d') d
      | _, _ => false
      end
  end.

(** ** The redirect target *)

(** The text before and after the first occurrence of a separator. *)
Fixpoint split_at (sep : N) (s : pystr) : pystr * pystr :=
  match s with
  | [] => ([], [])
  | c :: s' => if c =? sep then ([], s') else let (a, b) := split_at sep s' in (c :: a, b)
  end.

(** Host and port of an [http://host:port] address. *)
Definition uri_host_port (uri : pystr) : option (pystr * N) :=
  match strip_prefix (str "http://") uri with
  | Some authority => let (host, port) := split_at 58 authority in Some (host, int_of_digits port)
  | None => None
  end.

(** ** A concrete setting for the examples *)

(** The only finite float of the examples is zero: this instance prints a
    float as [0.0] and reads a number with a fraction or an exponent as
    zero, which is right of that float and of its text. *)
Definition example_floats : FloatText :=
  {| float_of_str := fun _ => SpecFloat.S754_zero false;
     float_repr := fun _ => str "0.0" |}.

(** Scope identifiers as the text of their name. *)
Definition example_calendar : string := "https://www.googleapis.com/auth/calendar".

Definition example_secrets : pyval :=
  PDict [(PStr (str "installed"),
          PDict [(PStr (str "client_id"), PStr (str "abc.apps.googleusercontent.com"));
                 (PStr (str "client_secret"), PStr (str "s3cr3t"));
                 (PStr (str "scopes"), PList [PStr (str "gmail"); PStr (str "drive")])])].

Definition example_credentials_text : pystr :=
  Eval vm_compute in
    match @json_dumps example_floats example_secrets with
    | Ok text => text
    | Raise _ => []
    end.

(** A file system with the secrets and an older token. *)
Definition example_fs : gmap string pystr :=
  {[ CREDENTIALS := example_credentials_text; USER_TOKEN := str "OLD TOKEN" ]}.

(** A file system with other secrets and no token yet. *)
Definition example_fs_fresh : gmap string pystr :=
  {[ CREDENTIALS := str "{}" ]}.


(** The user consents and the flow returns [user_info]. *)
Definition consenting (user_info : pyval) : @World string :=
  {| init_check := fun _ _ => None;
     local_server_flow := fun _ _ => Ok user_info |}.

(** The user denies consent. *)
Definition denying : @World string :=
  {| init_check := fun _ _ => None;
     local_server_flow := fun _ _ => Raise (LibraryError "access_denied") |}.

Definition example_token : pyval :=
  PDict [(PStr (str "token"), PStr (str "ya29.a0"));
         (PStr (str "refresh_token"), PStr (str "1//0g"));
         (PStr (str "expiry"), PInt 1700000000);
         (PStr (str "scopes"), PList [PStr (str "calendar")])].

(** The same token with its scopes in a tuple. *)
Definition example_token_tuple : pyval :=
  PDict [(PStr (str "token"), PStr (str "ya29.a0"));
         (PStr (str "scopes"), PTuple [PStr (str "calendar")])].

(** A token holding an object [json] has no encoding for. *)
Definition example_token_object : pyval :=
  PDict [(PStr (str "token"), PStr (str "ya29.a0"));
         (PStr (str "expiry"), PObject "datetime")].

(** A token with floats, one of them infinite, and a string that holds a
    high surrogate on its own. *)
Definition example_token_float : pyval :=
  PDict [(PStr (str "token"), PStr (str "ya29.a0"));
         (PStr (str "expires_in"), PFloat (SpecFloat.S754_zero false));
         (PStr (str "quota"), PFloat (SpecFloat.S754_infinity false));
         (PStr (str "label"), PStr [55357; 97])].

(** Two tokens that are equal for [==]: the same entries, inserted in
    different orders. *)
Definition example_token_ab : pyval :=
  PDict [(PStr (str "token"), PStr (str "ya29.a0"));
         (PStr (str "expiry"), PInt 1700000000)].

Definition example_token_ba : pyval :=
  PDict [(PStr (str "expiry"), PInt 1700000000);
         (PStr (str "token"), PStr (str "ya29.a0"))].




Definition example_run (w : @World string) (fs : gmap string pystr)
  : @process string * result unit :=
  @run example_floats string example_calendar w fs.

(** ** Notions of the round-trip proof *)

(** A text after which a number cannot go on: it is empty, or its first
    character is no digit, dot or exponent mark. *)
Definition ends_number (rest : pystr) : bool :=
  match rest with
  | [] => true
  | c :: _ => negb (is_digit c || (c =? 46) || (c =? 101) || (c =? 69))
  end.

(** The first character of a document [json.dump] writes: no blank, no
    closing bracket, no byte order mark. *)
Definition starts_value (s : pystr) : bool :=
  match s with
  | [] => false
  | c :: _ => negb (is_ws c) && negb (c =? 93) && negb (c =? 65279)
  end.

(** What [scanstring] looks for after the escape of a high surrogate: the
    escape of a low one, or a [\u] it cannot read. *)
Definition low_escape_ahead (s : pystr) : bool :=
  match s with
  | b :: u :: s4 =>
      (b =? BACKSLASH) && (u =? 117)
      && match s4 with
         | g1 :: g2 :: g3 :: g4 :: _ =>
             match hex4 g1 g2 g3 g4 with
             | Some uni2 => is_low_surrogate uni2
             | None => true
             end
         | _ => true
         end
  | _ => false
  end.

Section encoded.
Context `{FloatText}.

(** The text [json.dump] writes for a value, whether it finishes or not. *)
Definition enc (v : pyval) : pystr := concat (fst (_iterencode v)).

(** What follows the first item of a list, up to the closing bracket. *)
Fixpoint items_text (l : list pyval) : pystr :=
  match l with
  | [] => str "]"
  | v :: l' => str ", " ++ enc v ++ items_text l'
  end.

(** What follows the first entry of a dict with string keys. *)
Fixpoint pairs_text (d : list (pystr * pyval)) : pystr :=
  match d with
  | [] => str "}"
  | (k, v) :: d' =>
      str ", " ++ encode_basestring_ascii k ++ str ": " ++ enc v ++ pairs_text d'
  end.

(** With enough fuel the scanner reads the text of [v] back, whatever
    follows it. *)
Definition reads_back (v : pyval) : Prop :=
  exists fuel0, forall fuel, (fuel0 <= fuel)%nat -> forall rest,
    ends_number rest = true ->
    _scan_once fuel (enc v ++ rest) = Some (Ok (v, rest)).

End encoded.

(** A dict entry with a string key. *)
Definition entry (kv : pystr * pyval) : pyval * pyval := (PStr (fst kv), snd kv).

(** ** Notions of the grammar proof *)



(** ** Notions of the fuel proof *)

(** A result leaves less text than it was given. *)
Definition shorter (r : result (pyval * pystr)) (s : pystr) : Prop :=
  match r with
  | Ok (_, rest) => (length rest < length s)%nat
  | Raise _ => True
  end.

(** A scanning function answered, and consumed some of its text. *)
Definition answers (x : option (result (pyval * pystr))) (s : pystr) : Prop :=
  exists r, x = Some r /\ shorter r s.

(** ** Notions of the further properties *)

(** A character of the ASCII range. *)
Definition is_ascii (c : N) : Prop := c < 128.

(** The value with every tuple turned into a list: [json.dump] writes the
    two alike. *)
Fixpoint listify (v : pyval) : pyval :=
  match v with
  | PList l | PTuple l => PList (map listify l)
  | PDict d => PDict (map (fun kv => (fst kv, listify (snd kv))) d)
  | _ => v
  end.

(** The library rejects the client secrets. *)
Definition rejecting : @World string :=
  {| init_check := fun _ _ => Some (LibraryError "invalid_client");
     local_server_flow := fun _ _ => Raise (LibraryError "unreachable") |}.

Section handles.
Context {Scopes : Type}.

(** The files left open by the events of a log, starting from the files in
    [opened]. [None] when an event opens a file that is open, or reads,
    writes or closes one that is not. *)
Fixpoint handles (l : list (@event Scopes)) (opened : list string)
  : option (list string) :=
  match l with
  | [] => Some opened
  | EvOpen p _ :: l' =>
      if bool_decide (p ∈ opened) then None else handles l' (p :: opened)
  | EvRead p :: l' | EvWrite p _ :: l' =>
      if bool_decide (p ∈ opened) then handles l' opened else None
  | EvClose p :: l' =>
      if bool_decide (p ∈ opened)
      then handles l' (List.filter (fun q => negb (String.eqb q p)) opened)
      else None
  | _ :: l' => handles l' opened
  end.
End handles.

(** A file system whose secrets file holds blanks only. *)
Definition example_fs_blank : gmap string pystr :=
  {[ CREDENTIALS := str "  " ]}.

(** * Properties *)

(** ** Text: escapes and numbers read back *)

Lemma hexval_hexdigit (d : N) : d < 16 -> hexval (hexdigit d) = Some d.
Proof.
  intros Hd.
  assert (Hcases : d = 0 \/ d = 1 \/ d = 2 \/ d = 3 \/ d = 4 \/ d = 5 \/ d = 6 \/ d = 7
                   \/ d = 8 \/ d = 9 \/ d = 10 \/ d = 11 \/ d = 12 \/ d = 13 \/ d = 14
                   \/ d = 15) by lia.
  repeat (destruct Hcases as [->|Hcases]; [reflexivity|]). by subst.
Qed.

Lemma hex4_format (n : N) :
  n < 65536 ->
  hex4 (hexdigit (n / 4096 mod 16)) (hexdigit (n / 256 mod 16))
       (hexdigit (n / 16 mod 16)) (hexdigit (n mod 16)) = Some n.
Proof.
  intros Hn. unfold hex4.
  rewrite !hexval_hexdigit by (apply N.mod_lt; lia).
  f_equal.
  replace (n / 256) with (n / 16 / 16) by (rewrite N.Div0.div_div; done).
  replace (n / 4096) with (n / 16 / 16 / 16) by (rewrite !N.Div0.div_div; done).
  assert (Htop : n / 16 / 16 / 16 < 16)
    by (rewrite !N.Div0.div_div; apply N.Div0.div_lt_upper_bound; simpl; lia).
  rewrite (N.mod_small _ _ Htop).
  pose proof (N.div_mod n 16). pose proof (N.div_mod (n / 16) 16).
  pose proof (N.div_mod (n / 16 / 16) 16). lia.
Qed.

(** A surrogate pair is put together as it was taken apart. *)
Lemma lor_shiftl_low (a b : N) : b < 1024 -> N.lor (N.shiftl a 10) b = a * 1024 + b.
Proof.
  intros Hb. rewrite N.shiftl_mul_pow2.
  assert (Hland : N.land (a * 2 ^ 10) b = 0).
  { apply N.bits_inj; intros i; rewrite N.land_spec, N.bits_0.
    destruct (N.lt_ge_cases i 10) as [Hi|Hi].
    - by rewrite (N.mul_pow2_bits_low a 10 i Hi).
    - replace (N.testbit b i) with false; [apply andb_false_r|].
      symmetry; apply N.bits_above_log2.
      destruct (N.eq_dec b 0) as [->|Hb0]; [simpl; lia|].
      apply N.log2_lt_pow2; [lia|].
      eapply N.lt_le_trans; [exact Hb|]. change 1024 with (2 ^ 10).
      apply N.pow_le_mono_r; [done|exact Hi]. }
  rewrite <- N.lxor_lor, <- N.add_nocarry_lxor by exact Hland. done.
Qed.

Lemma scanstring_plain (c : N) (rest chunks : pystr) :
  c <> QUOTE -> c <> BACKSLASH -> 32 <= c ->
  scanstring (c :: rest) chunks = scanstring rest (c :: chunks).
Proof.
  intros Hq Hb Hc. cbn [scanstring].
  rewrite (proj2 (N.eqb_neq _ _) Hq), (proj2 (N.eqb_neq _ _) Hb).
  by rewrite (proj2 (N.ltb_ge _ _) Hc).
Qed.

Lemma scanstring_uXXXX (h1 h2 h3 h4 uni : N) (rest chunks : pystr) :
  hex4 h1 h2 h3 h4 = Some uni -> is_high_surrogate uni = false ->
  scanstring (BACKSLASH :: 117 :: h1 :: h2 :: h3 :: h4 :: rest) chunks
  = scanstring rest (uni :: chunks).
Proof.
  intros Hhex Hhigh.
  cbn [scanstring N.eqb Pos.eqb negb QUOTE BACKSLASH]. by rewrite Hhex, Hhigh.
Qed.

Lemma scanstring_pair (h1 h2 h3 h4 g1 g2 g3 g4 uni uni2 : N) (rest chunks : pystr) :
  hex4 h1 h2 h3 h4 = Some uni -> is_high_surrogate uni = true ->
  hex4 g1 g2 g3 g4 = Some uni2 -> is_low_surrogate uni2 = true ->
  scanstring (BACKSLASH :: 117 :: h1 :: h2 :: h3 :: h4
              :: BACKSLASH :: 117 :: g1 :: g2 :: g3 :: g4 :: rest) chunks
  = scanstring rest (65536 + N.lor (N.shiftl (uni - 55296) 10) (uni2 - 56320) :: chunks).
Proof.
  intros Hhex Hhigh Hhex2 Hlow.
  cbn [scanstring N.eqb Pos.eqb negb andb QUOTE BACKSLASH].
  by rewrite Hhex, Hhigh, Hhex2, Hlow.
Qed.

(** The two halves of the surrogate pair [replace] writes for [c]. *)
Lemma surrogates_of (c : N) :
  65536 <= c < 1114112 ->
  N.lor 55296 (N.land (N.shiftr (c - 65536) 10) 1023) = 55296 + (c - 65536) / 1024
  /\ N.lor 56320 (N.land (c - 65536) 1023) = 56320 + (c - 65536) mod 1024.
Proof.
  intros Hc. set (n := c - 65536). assert (Hn : n < 1048576) by lia.
  change 1023 with (N.ones 10). rewrite !N.land_ones, N.shiftr_div_pow2.
  change (2 ^ 10) with 1024.
  assert (Hhi : n / 1024 < 1024) by (apply N.Div0.div_lt_upper_bound; lia).
  rewrite (N.mod_small _ _ Hhi).
  change 55296 with (N.shiftl 54 10) at 1. change 56320 with (N.shiftl 55 10) at 1.
  rewrite !lor_shiftl_low; [lia|apply N.mod_lt; lia|done].
Qed.

(** After the escape of a code point that pairs with nothing ahead, the
    decoder goes on with that code point. *)
Lemma scanstring_lone (h1 h2 h3 h4 uni : N) (rest chunks : pystr) :
  hex4 h1 h2 h3 h4 = Some uni -> low_escape_ahead rest = false ->
  scanstring (BACKSLASH :: 117 :: h1 :: h2 :: h3 :: h4 :: rest) chunks
  = scanstring rest (uni :: chunks).
Proof.
  intros Hhex Hahead.
  cbn [scanstring N.eqb Pos.eqb negb QUOTE BACKSLASH]. rewrite Hhex.
  destruct (is_high_surrogate uni); [|done].
  destruct rest as [|b [|u s4]]; [done..|].
  unfold low_escape_ahead in Hahead. fold BACKSLASH.
  destruct ((b =? BACKSLASH) && (u =? 117)); [|done]. cbn [andb] in Hahead.
  destruct s4 as [|g1 [|g2 [|g3 [|g4 s5]]]]; try discriminate Hahead.
  destruct (hex4 g1 g2 g3 g4) as [uni2|]; [|discriminate Hahead].
  by rewrite Hahead.
Qed.

(** The escape of a high surrogate. *)
Lemma replace_high_surrogate (c : N) :
  is_high_surrogate c = true -> replace c = str "\u" ++ format_04x c.
Proof.
  unfold is_high_surrogate. intros [Hlo Hhi]%andb_prop.
  apply N.leb_le in Hlo. apply N.leb_le in Hhi. unfold replace.
  destruct (N.eqb_spec c BACKSLASH) as [->|_]; [done|].
  destruct (N.eqb_spec c QUOTE) as [->|_]; [done|].
  replace (c <=? 126) with false by (symmetry; apply N.leb_gt; lia).
  rewrite andb_false_r.
  destruct (N.eqb_spec c 8) as [->|_]; [lia|].
  destruct (N.eqb_spec c 12) as [->|_]; [lia|].
  destruct (N.eqb_spec c 10) as [->|_]; [lia|].
  destruct (N.eqb_spec c 13) as [->|_]; [lia|].
  destruct (N.eqb_spec c 9) as [->|_]; [lia|].
  by rewrite (proj2 (N.ltb_lt c 65536)) by lia.
Qed.

(** What the encoder writes for a code point other than a low surrogate
    does not start as the escape of a low surrogate. *)
Lemma replace_no_low_escape (c : N) (tail : pystr) :
  is_code_point c = true -> is_low_surrogate c = false ->
  low_escape_ahead (replace c ++ tail) = false.
Proof.
  intros Hmax%N.ltb_lt Hlow. unfold replace.
  destruct (N.eqb_spec c BACKSLASH) as [->|Hb]; [reflexivity|].
  destruct (N.eqb_spec c QUOTE) as [->|Hq]; [reflexivity|].
  destruct ((32 <=? c) && (c <=? 126)).
  { cbn [app low_escape_ahead]. destruct tail as [|u s4]; [done|].
    by rewrite (proj2 (N.eqb_neq _ _) Hb). }
  destruct (N.eqb_spec c 8) as [->|_]; [reflexivity|].
  destruct (N.eqb_spec c 12) as [->|_]; [reflexivity|].
  destruct (N.eqb_spec c 10) as [->|_]; [reflexivity|].
  destruct (N.eqb_spec c 13) as [->|_]; [reflexivity|].
  destruct (N.eqb_spec c 9) as [->|_]; [reflexivity|].
  destruct (c <? 65536) eqn:H64k; [apply N.ltb_lt in H64k|apply N.ltb_ge in H64k].
  - cbn [str map list_ascii_of_string app format_04x low_escape_ahead].
    change (N_of_ascii "\") with BACKSLASH. change (N_of_ascii "u") with 117.
    rewrite !N.eqb_refl. cbn [andb]. by rewrite hex4_format.
  - cbv zeta. destruct (surrogates_of c) as [-> _]; [lia|].
    cbn [str map list_ascii_of_string app format_04x low_escape_ahead].
    change (N_of_ascii "\") with BACKSLASH. change (N_of_ascii "u") with 117.
    rewrite !N.eqb_refl. cbn [andb].
    assert (Hhi : (c - 65536) / 1024 < 1024) by (apply N.Div0.div_lt_upper_bound; lia).
    rewrite hex4_format by lia.
    unfold is_low_surrogate. apply andb_false_iff. left. apply N.leb_gt. lia.
Qed.

(** The decoder reads one replaced character back, when it is no high
    surrogate. *)
Lemma scanstring_replace (c : N) (rest chunks : pystr) :
  is_code_point c = true -> is_high_surrogate c = false ->
  scanstring (replace c ++ rest) chunks = scanstring rest (c :: chunks).
Proof.
  intros Hmax%N.ltb_lt Hhigh.
  unfold replace.
  destruct (N.eqb_spec c BACKSLASH) as [->|Hb]; [reflexivity|].
  destruct (N.eqb_spec c QUOTE) as [->|Hq]; [reflexivity|].
  destruct (32 <=? c) eqn:H32; [apply N.leb_le in H32|apply N.leb_gt in H32].
  - destruct (c <=? 126) eqn:H126; [by apply scanstring_plain|]. apply N.leb_gt in H126.
    cbn [andb].
    destruct (N.eqb_spec c 8) as [->|_]; [lia|].
    destruct (N.eqb_spec c 12) as [->|_]; [lia|].
    destruct (N.eqb_spec c 10) as [->|_]; [lia|].
    destruct (N.eqb_spec c 13) as [->|_]; [lia|].
    destruct (N.eqb_spec c 9) as [->|_]; [lia|].
    destruct (c <? 65536) eqn:H64k; [apply N.ltb_lt in H64k|apply N.ltb_ge in H64k].
    + by apply scanstring_uXXXX; [apply hex4_format|].
    + cbv zeta. destruct (surrogates_of c) as [-> ->]; [lia|].
      assert (Hc : c = 65536 + (c - 65536)) by lia.
      assert (Hn : c - 65536 < 1048576) by lia.
      revert Hc Hn. generalize (c - 65536). intros n Hc Hn.
      assert (Hhi : n / 1024 < 1024) by (apply N.Div0.div_lt_upper_bound; lia).
      assert (Hlo : n mod 1024 < 1024) by (apply N.mod_lt; lia).
      assert (Hdm : n = 1024 * (n / 1024) + n mod 1024) by (by apply N.div_mod).
      revert Hhi Hlo Hdm. generalize (n / 1024) (n mod 1024). intros hi lo Hhi Hlo Hdm.
      transitivity (scanstring rest
        (65536 + N.lor (N.shiftl (55296 + hi - 55296) 10) (56320 + lo - 56320) :: chunks));
        [apply scanstring_pair|].
      * apply hex4_format; lia.
      * unfold is_high_surrogate. apply andb_true_iff. rewrite !N.leb_le. lia.
      * apply hex4_format; lia.
      * unfold is_low_surrogate. apply andb_true_iff. rewrite !N.leb_le. lia.
      * f_equal. f_equal.
        rewrite (N.add_comm 55296), N.add_sub, (N.add_comm 56320), N.add_sub.
        rewrite lor_shiftl_low by done. lia.
  - cbn [andb].
    destruct (N.eqb_spec c 8) as [->|_]; [reflexivity|].
    destruct (N.eqb_spec c 12) as [->|_]; [reflexivity|].
    destruct (N.eqb_spec c 10) as [->|_]; [reflexivity|].
    destruct (N.eqb_spec c 13) as [->|_]; [reflexivity|].
    destruct (N.eqb_spec c 9) as [->|_]; [reflexivity|].
    rewrite (proj2 (N.ltb_lt c 65536)) by lia.
    by apply scanstring_uXXXX; [apply hex4_format; lia|].
Qed.

(** The decoder reads an encoded string back: a surrogate that stands alone
    comes back as it is. *)
Lemma scanstring_encode (s rest chunks : pystr) :
  str_restored s = true ->
  scanstring (flat_map replace s ++ QUOTE :: rest) chunks = Ok (rev chunks ++ s, rest).
Proof.
  unfold str_restored. intros [Hpoints Hpairs]%andb_prop.
  revert chunks. induction s as [|c s IH]; intros chunks.
  - by rewrite app_nil_r.
  - cbn [forallb] in Hpoints. apply andb_prop in Hpoints as [Hc Hpoints].
    cbn [no_surrogate_pair] in Hpairs. apply andb_prop in Hpairs as [Hnext Hpairs].
    cbn [flat_map]. rewrite <- app_assoc.
    transitivity (scanstring (flat_map replace s ++ QUOTE :: rest) (c :: chunks)).
    + destruct (is_high_surrogate c) eqn:Hhigh; [|by apply scanstring_replace].
      rewrite (replace_high_surrogate c Hhigh).
      apply scanstring_lone; [apply hex4_format|].
      * unfold is_high_surrogate in Hhigh. apply andb_prop in Hhigh as [_ Hhi].
        apply N.leb_le in Hhi. lia.
      * destruct s as [|c' s']; [by destruct rest|].
        cbn [forallb] in Hpoints. apply andb_prop in Hpoints as [Hc' _].
        cbn [flat_map]. rewrite <- app_assoc.
        apply replace_no_low_escape; [done|].
        by apply negb_true_iff in Hnext.
    + rewrite IH by done. cbn [rev]. by rewrite <- app_assoc.
Qed.

(** ** Integers read back *)

Lemma uint_digits_digits (u : Decimal.uint) : forallb is_digit (uint_digits u) = true.
Proof. induction u; simpl; auto. Qed.

Lemma span_digits_app (ds rest : pystr) :
  forallb is_digit ds = true -> ends_number rest = true ->
  span_digits (ds ++ rest) = (ds, rest).
Proof.
  intros Hds Hrest. induction ds as [|c ds IH]; simpl in *.
  - destruct rest as [|c rest]; [done|]. simpl in *.
    destruct (is_digit c); [done|done].
  - apply andb_prop in Hds as [-> Hds]. by rewrite IH.
Qed.

Lemma of_uint_acc_digits (u : Decimal.uint) (acc : positive) :
  fold_left (fun a c => a * 10 + (c - 48)) (uint_digits u) (Npos acc)
  = Npos (Pos.of_uint_acc u acc).
Proof.
  revert acc. induction u; intros acc; simpl; [done|..].
  all: rewrite <- IHu; f_equal; lia.
Qed.

Lemma int_of_uint_digits (u : Decimal.uint) : int_of_digits (uint_digits u) = N.of_uint u.
Proof.
  unfold int_of_digits, N.of_uint. induction u; simpl; [done|exact IHu|..].
  all: by rewrite <- of_uint_acc_digits.
Qed.

Lemma nzhead_not_D0 (u u' : Decimal.uint) : Decimal.nzhead u <> Decimal.D0 u'.
Proof. induction u; simpl; congruence. Qed.

(** The decimal digits of a positive number start with a digit from 1 to 9. *)
Lemma pos_digits_head (p : positive) :
  exists c ds, uint_digits (Pos.to_uint p) = c :: ds
               /\ 49 <= c <= 57 /\ forallb is_digit ds = true.
Proof.
  pose proof (DecimalN.Unsigned.to_of (Pos.to_uint p)) as Hnorm.
  rewrite DecimalPos.Unsigned.of_to in Hnorm. simpl in Hnorm.
  pose proof (DecimalPos.Unsigned.to_uint_nonzero p) as Hnz.
  pose proof (uint_digits_digits (Pos.to_uint p)) as Hds.
  destruct (Pos.to_uint p) as [|u|u|u|u|u|u|u|u|u|u] eqn:Hu.
  - by destruct (DecimalPos.Unsigned.to_uint_nonnil p).
  - exfalso. unfold Decimal.unorm in Hnorm. simpl in Hnorm.
    destruct (Decimal.nzhead u) eqn:Hh; try discriminate Hnorm.
    + injection Hnorm as ->. by apply Hnz.
    + by apply nzhead_not_D0 in Hh.
  - simpl in *. eexists _, _. split; [done|]. split; [lia|done].
  - simpl in *. eexists _, _. split; [done|]. split; [lia|done].
  - simpl in *. eexists _, _. split; [done|]. split; [lia|done].
  - simpl in *. eexists _, _. split; [done|]. split; [lia|done].
  - simpl in *. eexists _, _. split; [done|]. split; [lia|done].
  - simpl in *. eexists _, _. split; [done|]. split; [lia|done].
  - simpl in *. eexists _, _. split; [done|]. split; [lia|done].
  - simpl in *. eexists _, _. split; [done|]. split; [lia|done].
  - simpl in *. eexists _, _. split; [done|]. split; [lia|done].
Qed.

Lemma match_frac_none (rest : pystr) : ends_number rest = true -> match_frac rest = ([], rest).
Proof.
  destruct rest as [|c rest]; [done|]. simpl. intros Hc.
  destruct (N.eqb_spec c 46) as [->|_]; [done|done].
Qed.

Lemma match_exp_none (rest : pystr) : ends_number rest = true -> match_exp rest = ([], rest).
Proof.
  destruct rest as [|c rest]; [done|]. simpl. intros Hc.
  destruct (N.eqb_spec c 101) as [->|_]; [done|].
  destruct (N.eqb_spec c 69) as [->|_]; [done|done].
Qed.

(** [int(repr(z)) == z], through the number pattern of the scanner. *)
Lemma match_number_intstr (z : Z) (rest : pystr) :
  ends_number rest = true ->
  match_number (_intstr z ++ rest) = Some (_intstr z, [], [], rest).
Proof.
  intros Hrest. unfold match_number.
  assert (Hint : match_integer (_intstr z ++ rest) = Some (_intstr z, rest)).
  { destruct z as [|p|p]; [done|..]; simpl.
    all: destruct (pos_digits_head p) as (c & ds & -> & Hc & Hds).
    all: unfold match_integer; simpl.
    all: destruct (N.eqb_spec c 45) as [->|_]; [lia|].
    all: destruct (N.eqb_spec c 48) as [->|_]; [lia|].
    all: replace (is_digit c) with true
           by (symmetry; unfold is_digit; apply andb_true_iff; rewrite !N.leb_le; lia).
    all: by rewrite span_digits_app. }
  by rewrite Hint, match_frac_none, match_exp_none.
Qed.

Lemma parse_int_intstr (z : Z) : parse_int (_intstr z) = z.
Proof.
  destruct z as [|p|p]; [done|..]; simpl.
  - destruct (pos_digits_head p) as (c & ds & Heq & Hc & Hds).
    unfold parse_int. rewrite Heq.
    destruct (N.eqb_spec c 45) as [->|_]; [lia|].
    by rewrite <- Heq, int_of_uint_digits, DecimalPos.Unsigned.of_to.
  - by rewrite int_of_uint_digits, DecimalPos.Unsigned.of_to.
Qed.

(** The first character of an integer's text. *)
Lemma intstr_head (z : Z) :
  exists c t, _intstr z = c :: t /\ (c = 45 \/ 48 <= c <= 57).
Proof.
  destruct z as [|p|p]; simpl.
  - exists 48, []. split; [reflexivity|]. right. lia.
  - destruct (pos_digits_head p) as (c & ds & -> & Hc & _).
    eexists _, _. split; [done|]. right. lia.
  - eexists _, _. split; [done|]. by left.
Qed.

(** ** Floats read back *)

Lemma same_float_eq (x y : pyfloat) : same_float x y = true -> x = y.
Proof.
  destruct x as [s| s| |s m e], y as [t| t| |t n f]; simpl; try discriminate.
  - by intros ->%Bool.eqb_prop.
  - by intros ->%Bool.eqb_prop.
  - done.
  - intros [[->%Bool.eqb_prop ->%Pos.eqb_eq]%andb_prop ->%Z.eqb_eq]%andb_prop. done.
Qed.

(** A match of a piece of the number pattern stays what it is when the text
    goes on with something that continues no number. *)
Lemma span_digits_ext (s ds r rest : pystr) :
  span_digits s = (ds, r) -> ends_number rest = true ->
  span_digits (s ++ rest) = (ds, r ++ rest).
Proof.
  intros Hs Hrest. revert ds r Hs. induction s as [|c s IH]; intros ds r.
  - intros [= <- <-]. destruct rest as [|c rest]; [done|]. simpl in *.
    by destruct (is_digit c).
  - simpl. destruct (is_digit c); [|by intros [= <- <-]].
    destruct (span_digits s) as [ds' r'] eqn:Hspan. intros [= <- <-].
    by rewrite (IH ds' r').
Qed.

Lemma match_integer_ext (s integer r rest : pystr) :
  match_integer s = Some (integer, r) -> ends_number rest = true ->
  match_integer (s ++ rest) = Some (integer, r ++ rest).
Proof.
  intros Hs Hrest. unfold match_integer in *.
  assert (Hdigits : forall sign t,
    match t with
    | c :: s2 =>
        if c =? 48 then Some (sign ++ [48], s2)
        else if is_digit c then let (ds, r) := span_digits s2 in Some (sign ++ c :: ds, r)
        else None
    | [] => None
    end = Some (integer, r) ->
    match t ++ rest with
    | c :: s2 =>
        if c =? 48 then Some (sign ++ [48], s2)
        else if is_digit c then let (ds, r) := span_digits s2 in Some (sign ++ c :: ds, r)
        else None
    | [] => None
    end = Some (integer, r ++ rest)).
  { intros sign [|c s2]; [done|]. cbn [app].
    destruct (c =? 48); [by intros [= <- <-]|].
    destruct (is_digit c); [|done].
    destruct (span_digits s2) as [ds r'] eqn:Hspan. intros [= <- <-].
    by rewrite (span_digits_ext _ _ _ _ Hspan Hrest). }
  destruct s as [|c s']; [done|]. cbn [app].
  destruct (c =? 45); [by apply Hdigits|by apply (Hdigits [] (c :: s'))].
Qed.

Lemma match_frac_ext (s frac r rest : pystr) :
  match_frac s = (frac, r) -> ends_number rest = true ->
  match_frac (s ++ rest) = (frac, r ++ rest).
Proof.
  intros Hs Hrest. destruct s as [|c s'].
  - injection Hs as <- <-. by apply match_frac_none.
  - unfold match_frac in *. cbn [app]. destruct (c =? 46); [|by injection Hs as <- <-].
    destruct (span_digits s') as [ds r'] eqn:Hspan.
    rewrite (span_digits_ext _ _ _ _ Hspan Hrest).
    destruct ds; by injection Hs as <- <-.
Qed.

(** For the exponent the match has to reach the end of the text: after a
    bare exponent mark a sign and digits could follow. *)
Lemma match_exp_end (s exp rest : pystr) :
  match_exp s = (exp, []) -> ends_number rest = true ->
  match_exp (s ++ rest) = (exp, rest).
Proof.
  intros Hs Hrest. destruct s as [|c s1].
  - injection Hs as <-. by apply match_exp_none.
  - unfold match_exp in *. cbn [app]. destruct ((c =? 101) || (c =? 69)); [|done].
    assert (Hsign : forall sign s2,
      match span_digits s2 with
      | ([], _) => ([], c :: s1)
      | (ds, r) => (c :: sign ++ ds, r)
      end = (exp, []) ->
      match span_digits (s2 ++ rest) with
      | ([], _) => ([], c :: s1 ++ rest)
      | (ds, r) => (c :: sign ++ ds, r)
      end = (exp, rest)).
    { intros sign s2. destruct (span_digits s2) as [ds r] eqn:Hspan.
      rewrite (span_digits_ext _ _ _ _ Hspan Hrest).
      destruct ds; [done|]. by intros [= <- ->]. }
    destruct s1 as [|d s'].
    + specialize (Hsign [] []). simpl in Hsign, Hs. done.
    + cbn [app]. destruct ((d =? 45) || (d =? 43)); [by apply Hsign|].
      by apply (Hsign [] (d :: s')).
Qed.

Lemma match_number_app (t integer frac exp rest : pystr) :
  match_number t = Some (integer, frac, exp, []) -> ends_number rest = true ->
  match_number (t ++ rest) = Some (integer, frac, exp, rest).
Proof.
  unfold match_number. intros Ht Hrest.
  destruct (match_integer t) as [[i s1]|] eqn:Hint; [|done].
  rewrite (match_integer_ext _ _ _ _ Hint Hrest).
  destruct (match_frac s1) as [f s2] eqn:Hfrac.
  rewrite (match_frac_ext _ _ _ _ Hfrac Hrest).
  destruct (match_exp s2) as [e s3] eqn:Hexp. injection Ht as -> -> -> ->.
  by rewrite (match_exp_end _ _ _ Hexp Hrest).
Qed.

(** A number starts with a minus sign or a digit. *)
Lemma match_number_head (s integer frac exp rest : pystr) :
  match_number s = Some (integer, frac, exp, rest) ->
  exists c t, s = c :: t /\ (c = 45 \/ 48 <= c <= 57).
Proof.
  unfold match_number, match_integer. destruct s as [|c s']; [done|].
  intros Hs. exists c, s'. split; [done|].
  destruct (N.eqb_spec c 45) as [->|_]; [by left|]. right.
  destruct (N.eqb_spec c 48) as [->|_]; [lia|].
  destruct (is_digit c) eqn:Hc; [|done]. unfold is_digit in Hc.
  apply andb_prop in Hc as [Hlo%N.leb_le Hhi%N.leb_le]. lia.
Qed.

(** ** The fuel of the scanner *)

Section fuel.
Context `{FloatText}.

Lemma scan_once_S (fuel : nat) (s : pystr) :
  _scan_once (S fuel) s
  = scan_body (JSONObject (JSONObject_loop fuel)) (JSONArray (JSONArray_loop fuel)) s.
Proof. reflexivity. Qed.

Lemma JSONArray_loop_S (fuel : nat) (s : pystr) (values : list pyval) :
  JSONArray_loop (S fuel) s values
  = JSONArray_round (_scan_once fuel) (JSONArray_loop fuel) s values.
Proof. reflexivity. Qed.

Lemma JSONObject_loop_S (fuel : nat) (s : pystr) (pairs : list (pystr * pyval)) :
  JSONObject_loop (S fuel) s pairs
  = JSONObject_round (_scan_once fuel) (JSONObject_loop fuel) s pairs.
Proof. reflexivity. Qed.

(** A result stays the same when the functions called give more results. *)
Lemma JSONArray_round_mono (scan scan' : pystr -> scanned)
    (again again' : pystr -> list pyval -> scanned) :
  (forall s r, scan s = Some r -> scan' s = Some r) ->
  (forall s vs r, again s vs = Some r -> again' s vs = Some r) ->
  forall s vs r, JSONArray_round scan again s vs = Some r ->
                 JSONArray_round scan' again' s vs = Some r.
Proof.
  intros Hscan Hagain s vs r. unfold JSONArray_round.
  destruct (scan s) as [[[value s1]|e]|] eqn:Hs; [| |done];
    rewrite (Hscan _ _ Hs); [|done].
  destruct (skip_ws s1) as [|c s2]; [done|].
  destruct (c =? 93); [done|]. destruct (c =? 44); [apply Hagain|done].
Qed.

Lemma JSONObject_round_mono (scan scan' : pystr -> scanned)
    (again again' : pystr -> list (pystr * pyval) -> scanned) :
  (forall s r, scan s = Some r -> scan' s = Some r) ->
  (forall s ps r, again s ps = Some r -> again' s ps = Some r) ->
  forall s ps r, JSONObject_round scan again s ps = Some r ->
                 JSONObject_round scan' again' s ps = Some r.
Proof.
  intros Hscan Hagain s ps r. unfold JSONObject_round.
  destruct (scanstring s []) as [[key s1]|e]; [|done].
  destruct (skip_ws s1) as [|colon s2]; [done|].
  destruct (colon =? 58); [|done].
  destruct (scan (skip_ws s2)) as [[[value s3]|e]|] eqn:Hs; [| |done];
    rewrite (Hscan _ _ Hs); [|done].
  destruct (skip_ws s3) as [|c s4]; [done|].
  destruct (c =? 125); [done|]. destruct (c =? 44); [|done].
  destruct (skip_ws s4) as [|q s5]; [done|].
  destruct (q =? QUOTE); [apply Hagain|done].
Qed.

Lemma scan_body_mono (po po' pa pa' : pystr -> scanned) :
  (forall s r, po s = Some r -> po' s = Some r) ->
  (forall s r, pa s = Some r -> pa' s = Some r) ->
  forall s r, scan_body po pa s = Some r -> scan_body po' pa' s = Some r.
Proof.
  intros Hpo Hpa s r. unfold scan_body.
  destruct s as [|c tail]; [done|].
  destruct (c =? QUOTE); [done|].
  destruct (c =? 123); [apply Hpo|]. destruct (c =? 91); [apply Hpa|done].
Qed.

Lemma JSONArray_mono (loop loop' : pystr -> list pyval -> scanned) :
  (forall s vs r, loop s vs = Some r -> loop' s vs = Some r) ->
  forall s r, JSONArray loop s = Some r -> JSONArray loop' s = Some r.
Proof.
  intros Hloop s r. unfold JSONArray.
  destruct (skip_ws s) as [|c rest]; [apply Hloop|].
  destruct (c =? 93); [done|apply Hloop].
Qed.

Lemma JSONObject_mono (loop loop' : pystr -> list (pystr * pyval) -> scanned) :
  (forall s ps r, loop s ps = Some r -> loop' s ps = Some r) ->
  forall s r, JSONObject loop s = Some r -> JSONObject loop' s = Some r.
Proof.
  intros Hloop s r. unfold JSONObject.
  destruct (skip_ws s) as [|c rest]; [done|].
  destruct (c =? 125); [done|]. destruct (c =? QUOTE); [apply Hloop|done].
Qed.

Lemma fuel_mono_S (fuel : nat) :
  (forall s r, _scan_once fuel s = Some r -> _scan_once (S fuel) s = Some r)
  /\ (forall s vs r, JSONArray_loop fuel s vs = Some r ->
                     JSONArray_loop (S fuel) s vs = Some r)
  /\ (forall s ps r, JSONObject_loop fuel s ps = Some r ->
                     JSONObject_loop (S fuel) s ps = Some r).
Proof.
  induction fuel as [|fuel (IHscan & IHarr & IHobj)]; [done|].
  split; [|split].
  - intros s r. rewrite (scan_once_S (S fuel)), (scan_once_S fuel).
    apply scan_body_mono; [by apply JSONObject_mono|by apply JSONArray_mono].
  - intros s vs r. rewrite (JSONArray_loop_S (S fuel)), (JSONArray_loop_S fuel).
    by apply JSONArray_round_mono.
  - intros s ps r. rewrite (JSONObject_loop_S (S fuel)), (JSONObject_loop_S fuel).
    by apply JSONObject_round_mono.
Qed.

(** More fuel never changes a result. *)
Lemma scan_once_mono (fuel fuel' : nat) (s : pystr) (r : result (pyval * pystr)) :
  (fuel <= fuel')%nat -> _scan_once fuel s = Some r -> _scan_once fuel' s = Some r.
Proof.
  induction 1 as [|fuel' _ IH]; [done|].
  intros Hr. by apply fuel_mono_S, IH.
Qed.
End fuel.

Section total.
Context `{FloatText}.

Lemma skip_ws_length (s : pystr) : (length (skip_ws s) <= length s)%nat.
Proof. induction s as [|c s IH]; simpl; [done|]. destruct (is_ws c); simpl; lia. Qed.

Lemma strip_prefix_length (prefix s rest : pystr) :
  strip_prefix prefix s = Some rest -> (length rest + length prefix = length s)%nat.
Proof.
  revert s. induction prefix as [|p prefix IH]; intros [|c s]; simpl; try congruence.
  - intros [= <-]. done.
  - intros [= <-]. simpl. lia.
  - destruct (p =? c); [|done]. intros Hs. apply IH in Hs. lia.
Qed.

Lemma span_digits_length (s : pystr) : (length (span_digits s).2 <= length s)%nat.
Proof.
  induction s as [|c s IH]; simpl; [done|].
  destruct (is_digit c); [|done]. destruct (span_digits s); simpl in *. lia.
Qed.

Lemma match_number_length (s integer frac exp rest : pystr) :
  match_number s = Some (integer, frac, exp, rest) -> (length rest < length s)%nat.
Proof.
  unfold match_number.
  destruct (match_integer s) as [[i s1]|] eqn:Hi; [|done].
  assert (H1 : (length s1 < length s)%nat).
  { unfold match_integer in Hi.
    assert (Hdigits : forall sign t, match t with
              | c :: s2 =>
                  if c =? 48 then Some (sign ++ [48], s2)
                  else if is_digit c
                       then let (ds, r) := span_digits s2 in Some (sign ++ c :: ds, r)
                       else None
              | [] => None
              end = Some (i, s1) -> (length s1 < length t)%nat).
    { intros sign [|c s2]; [done|]. destruct (c =? 48); [intros [= _ <-]; simpl; lia|].
      destruct (is_digit c); [|done].
      pose proof (span_digits_length s2) as Hl. destruct (span_digits s2) as [ds r].
      intros [= _ <-]. simpl in *. lia. }
    destruct s as [|c s']; [done|].
    destruct (c =? 45).
    - apply (Hdigits [45] s') in Hi. simpl. lia.
    - by apply (Hdigits [] (c :: s')) in Hi. }
  assert (H2 : (length (match_frac s1).2 <= length s1)%nat).
  { unfold match_frac. destruct s1 as [|c s']; [done|].
    destruct (c =? 46); [|done].
    pose proof (span_digits_length s') as Hl. destruct (span_digits s') as [[|d ds] r];
      simpl in *; lia. }
  destruct (match_frac s1) as [f s2].
  assert (H3 : (length (match_exp s2).2 <= length s2)%nat).
  { unfold match_exp. destruct s2 as [|c s']; [done|].
    destruct ((c =? 101) || (c =? 69)); [|done].
    assert (Hsign : forall (sg : pystr) s2',
              (length s2' <= length s')%nat ->
              (length (match span_digits s2' with
                       | ([], _) => ([], c :: s')
                       | (ds, r) => (c :: sg ++ ds, r)
                       end).2 <= length (c :: s'))%nat).
    { intros sg s2' Hle. pose proof (span_digits_length s2') as Hl.
      destruct (span_digits s2') as [[|d ds] r]; simpl in *; lia. }
    destruct s' as [|d s'']; [apply Hsign; done|].
    destruct ((d =? 45) || (d =? 43)); apply Hsign; simpl; lia. }
  destruct (match_exp s2) as [e s3]. intros [= _ _ _ <-]. simpl in *. lia.
Qed.

Lemma scanstring_length (s chunks decoded rest : pystr) :
  scanstring s chunks = Ok (decoded, rest) -> (length rest < length s)%nat.
Proof.
  remember (length s) as n eqn:Hn. revert s chunks Hn.
  induction n as [n IH] using lt_wf_ind. intros s chunks ->.
  assert (Hrec : forall t chunks', (length t < length s)%nat ->
            scanstring t chunks' = Ok (decoded, rest) -> (length rest < length s)%nat).
  { intros t chunks' Ht Hr. specialize (IH _ Ht t chunks' eq_refl Hr). lia. }
  clear IH. destruct s as [|c s1]; [done|]. cbn [scanstring].
  destruct (c =? QUOTE); [intros [= _ <-]; simpl; lia|].
  destruct (c =? BACKSLASH).
  - destruct s1 as [|esc s2]; [done|].
    destruct (negb (esc =? 117)).
    { destruct (backslash esc); [|done]. apply Hrec. simpl. lia. }
    destruct s2 as [|h1 [|h2 [|h3 [|h4 s3]]]]; try done.
    destruct (hex4 h1 h2 h3 h4) as [uni|]; [|done].
    assert (Hs3 : forall chunks', scanstring s3 chunks' = Ok (decoded, rest) ->
              (length rest < length (c :: esc :: h1 :: h2 :: h3 :: h4 :: s3))%nat)
      by (intros chunks'; apply Hrec; simpl; lia).
    destruct (is_high_surrogate uni); [|apply Hs3].
    destruct s3 as [|b [|u s4]]; try apply Hs3.
    destruct ((b =? BACKSLASH) && (u =? 117)); [|apply Hs3].
    destruct s4 as [|g1 [|g2 [|g3 [|g4 s5]]]]; try done.
    destruct (hex4 g1 g2 g3 g4) as [uni2|]; [|done].
    destruct (is_low_surrogate uni2); [|apply Hs3].
    apply Hrec. simpl. lia.
  - destruct (c <? 32); [done|]. apply Hrec. simpl. lia.
Qed.

Lemma JSONArray_round_answers (scan : pystr -> scanned)
    (again : pystr -> list pyval -> scanned) (s : pystr) (vs : list pyval) :
  answers (scan s) s ->
  (forall s' vs', (length s' + 2 <= length s)%nat -> answers (again s' vs') s') ->
  answers (JSONArray_round scan again s vs) s.
Proof.
  intros ([[value s1]|e] & Hs & Hshort) Hagain; unfold JSONArray_round; rewrite Hs.
  2: by eexists.
  simpl in Hshort. pose proof (skip_ws_length s1) as Hl1.
  destruct (skip_ws s1) as [|c s2]; [by eexists|].
  destruct (c =? 93); [eexists; split; [done|]; simpl in *; lia|].
  destruct (c =? 44); [|by eexists].
  pose proof (skip_ws_length s2) as Hl2. simpl in *.
  destruct (Hagain (skip_ws s2) (value :: vs)) as (r & -> & Hr); [lia|].
  exists r. split; [done|]. destruct r as [[v rest]|e]; simpl in *; [lia|done].
Qed.

Lemma JSONObject_round_answers (scan : pystr -> scanned)
    (again : pystr -> list (pystr * pyval) -> scanned) (s : pystr)
    (ps : list (pystr * pyval)) :
  (forall s', (length s' + 2 <= length s)%nat -> answers (scan s') s') ->
  (forall s' ps', (length s' + 2 <= length s)%nat -> answers (again s' ps') s') ->
  answers (JSONObject_round scan again s ps) s.
Proof.
  intros Hscan Hagain. unfold JSONObject_round.
  destruct (scanstring s []) as [[key s1]|e] eqn:Hkey; [|by eexists].
  apply scanstring_length in Hkey. pose proof (skip_ws_length s1) as Hl1.
  destruct (skip_ws s1) as [|colon s2]; [by eexists|].
  destruct (colon =? 58); [|by eexists].
  pose proof (skip_ws_length s2) as Hl2. simpl in *.
  destruct (Hscan (skip_ws s2)) as ([[value s3]|e] & -> & Hshort); [lia| |by eexists].
  simpl in Hshort. pose proof (skip_ws_length s3) as Hl3.
  destruct (skip_ws s3) as [|c s4]; [by eexists|].
  destruct (c =? 125); [eexists; split; [done|]; simpl in *; lia|].
  destruct (c =? 44); [|by eexists].
  pose proof (skip_ws_length s4) as Hl4.
  destruct (skip_ws s4) as [|q s5]; [by eexists|].
  destruct (q =? QUOTE); [|by eexists]. simpl in *.
  destruct (Hagain s5 ((key, value) :: ps)) as (r & -> & Hr); [lia|].
  exists r. split; [done|]. destruct r as [[v rest]|e]; simpl in *; [lia|done].
Qed.

Lemma JSONArray_answers (loop : pystr -> list pyval -> scanned) (s : pystr) :
  (forall s' vs, (length s' <= length s)%nat -> answers (loop s' vs) s') ->
  answers (JSONArray loop s) (0 :: s).
Proof.
  intros Hloop. unfold JSONArray. pose proof (skip_ws_length s) as Hl.
  destruct (skip_ws s) as [|c rest] eqn:Hs.
  - destruct (Hloop [] []) as (r & -> & Hr); [simpl; lia|].
    exists r. split; [done|]. destruct r as [[v rest]|e]; simpl in *; [lia|done].
  - destruct (c =? 93); [eexists; split; [done|]; simpl in *; lia|].
    destruct (Hloop (c :: rest) []) as (r & -> & Hr); [done|].
    exists r. split; [done|]. destruct r as [[v rest']|e]; simpl in *; [lia|done].
Qed.

Lemma JSONObject_answers (loop : pystr -> list (pystr * pyval) -> scanned) (s : pystr) :
  (forall s' ps, (length s' + 1 <= length s)%nat -> answers (loop s' ps) s') ->
  answers (JSONObject loop s) (0 :: s).
Proof.
  intros Hloop. unfold JSONObject. pose proof (skip_ws_length s) as Hl.
  destruct (skip_ws s) as [|c rest] eqn:Hs; [by eexists|].
  destruct (c =? 125); [eexists; split; [done|]; simpl in *; lia|].
  destruct (c =? QUOTE); [|by eexists]. simpl in *.
  destruct (Hloop rest []) as (r & -> & Hr); [lia|].
  exists r. split; [done|]. destruct r as [[v rest']|e]; simpl in *; [lia|done].
Qed.

Lemma scan_body_answers (po pa : pystr -> scanned) (s : pystr) :
  (forall c tail, s = c :: tail -> answers (po tail) s) ->
  (forall c tail, s = c :: tail -> answers (pa tail) s) ->
  answers (scan_body po pa s) s.
Proof.
  intros Hpo Hpa. unfold scan_body. destruct s as [|c tail]; [by eexists|].
  destruct (c =? QUOTE).
  { destruct (scanstring tail []) as [[d rest]|e] eqn:Hd; [|by eexists].
    apply scanstring_length in Hd. eexists; split; [done|]. simpl. lia. }
  destruct (c =? 123); [by eapply Hpo|]. destruct (c =? 91); [by eapply Hpa|].
  repeat match goal with
  | |- context [strip_prefix ?p ?t] =>
      let Hp := fresh "Hp" in
      destruct (strip_prefix p t) as [?rest|] eqn:Hp;
      [apply strip_prefix_length in Hp; eexists; split; [done|]; simpl in *; lia|]
  | |- context [match_number ?t] =>
      let Hm := fresh "Hm" in
      destruct (match_number t) as [[[[?i ?f] ?e] ?rest]|] eqn:Hm;
      [apply match_number_length in Hm;
       destruct f, e; (eexists; split; [done|]; simpl in *; lia)|]
  end.
  by eexists.
Qed.

(** With fuel above twice the length of the text, the scanner answers. *)
Lemma scan_once_total (fuel : nat) :
  (forall s, (2 * length s + 1 <= fuel)%nat -> answers (_scan_once fuel s) s)
  /\ (forall s vs, (2 * length s + 2 <= fuel)%nat -> answers (JSONArray_loop fuel s vs) s)
  /\ (forall s ps, (2 * length s + 2 <= fuel)%nat -> answers (JSONObject_loop fuel s ps) s).
Proof.
  induction fuel as [|fuel (IHscan & IHarr & IHobj)]; [repeat split; intros; lia|].
  split; [|split].
  - intros s Hs. rewrite scan_once_S. apply scan_body_answers.
    + intros c tail ->. apply (JSONObject_answers _ tail).
      intros s' ps Hs'. apply IHobj. simpl in *. lia.
    + intros c tail ->. apply (JSONArray_answers _ tail).
      intros s' vs Hs'. apply IHarr. simpl in *. lia.
  - intros s vs Hs. rewrite JSONArray_loop_S. apply JSONArray_round_answers.
    + apply IHscan. lia.
    + intros s' vs' Hs'. apply IHarr. lia.
  - intros s ps Hs. rewrite JSONObject_loop_S. apply JSONObject_round_answers.
    + intros s' Hs'. apply IHscan. lia.
    + intros s' ps' Hs'. apply IHobj. lia.
Qed.

(** [raw_decode] passes enough fuel, so [decode] always answers and
    [json_loads] never falls back on [RecursionError]. *)
Lemma scan_once_fuel (s : pystr) : exists r, raw_decode s = Some r.
Proof.
  destruct (proj1 (scan_once_total (2 * length s + 1)) s) as (r & Hr & _); [done|].
  by exists r.
Qed.

End total.

(** ** The decoder and the grammar *)


Section grammar_facts.
Context `{FloatText}.






End grammar_facts.

(** Valid JSON is accepted: the literals only add texts. *)
Lemma rfc8259_constants (fuel : nat) :
  (forall s rest, rfc8259_value false fuel s = Some rest ->
                  rfc8259_value true fuel s = Some rest)
  /\ (forall s rest, rfc8259_elements false fuel s = Some rest ->
                     rfc8259_elements true fuel s = Some rest)
  /\ (forall s rest, rfc8259_members false fuel s = Some rest ->
                     rfc8259_members true fuel s = Some rest).
Proof.
  induction fuel as [|fuel (IHvalue & IHelements & IHmembers)]; [done|].
  split; [|split].
  - intros s rest. cbn [rfc8259_value]. unfold rfc8259_body.
    destruct s as [|c tail]; [done|].
    destruct (c =? QUOTE); [done|].
    destruct (c =? 123).
    { unfold rfc8259_object. destruct (skip_ws tail) as [|c' t]; [done|].
      destruct (c' =? 125); [done|]. destruct (c' =? QUOTE); [apply IHmembers|done]. }
    destruct (c =? 91).
    { unfold rfc8259_array. destruct (skip_ws tail) as [|c' t]; [done|].
      destruct (c' =? 93); [done|apply IHelements]. }
    repeat match goal with
    | |- context [strip_prefix ?p ?t] => destruct (strip_prefix p t) as [?r|]; [done|]
    | |- context [match_number ?t] =>
        destruct (match_number t) as [[[[?i ?f] ?e] ?r]|]; [done|]
    end.
    done.
  - intros s rest. cbn [rfc8259_elements]. unfold rfc8259_elements_round.
    destruct (rfc8259_value false fuel s) as [s1|] eqn:Hv; [|done].
    rewrite (IHvalue _ _ Hv). destruct (skip_ws s1) as [|c s2]; [done|].
    destruct (c =? 93); [done|]. destruct (c =? 44); [apply IHelements|done].
  - intros s rest. cbn [rfc8259_members]. unfold rfc8259_members_round.
    destruct (rfc8259_string s) as [s1|]; [|done].
    destruct (skip_ws s1) as [|colon s2]; [done|].
    destruct (colon =? 58); [|done].
    destruct (rfc8259_value false fuel (skip_ws s2)) as [s3|] eqn:Hv; [|done].
    rewrite (IHvalue _ _ Hv). destruct (skip_ws s3) as [|c s4]; [done|].
    destruct (c =? 125); [done|]. destruct (c =? 44); [|done].
    destruct (skip_ws s4) as [|q s5]; [done|].
    destruct (q =? QUOTE); [apply IHmembers|done].
Qed.

Lemma valid_json_loadable (s : pystr) : valid_json s -> loadable_json s.
Proof.
  intros (fuel & rest & Hvalue & Hrest). exists fuel, rest.
  split; [by apply rfc8259_constants|done].
Qed.

(** ** What the encoder writes *)

(** Induction on values, through the lists and the entries they hold. *)
Lemma pyval_ind (P : pyval -> Prop) :
  P PNone -> (forall b, P (PBool b)) -> (forall z, P (PInt z)) ->
  (forall x, P (PFloat x)) -> (forall s, P (PStr s)) ->
  (forall l, Forall P l -> P (PList l)) ->
  (forall l, Forall P l -> P (PTuple l)) ->
  (forall d, Forall (fun kv => P (fst kv) /\ P (snd kv)) d -> P (PDict d)) ->
  (forall cls, P (PObject cls)) ->
  forall v, P v.
Proof.
  intros HNone HBool HInt HFloat HStr HList HTuple HDict HObject.
  fix IH 1. intros [| b | z | x | s | l | l | d | cls].
  - exact HNone.
  - apply HBool.
  - apply HInt.
  - apply HFloat.
  - apply HStr.
  - apply HList. revert l. fix IHl 1. intros [|v l]; constructor; [apply IH|apply IHl].
  - apply HTuple. revert l. fix IHl 1. intros [|v l]; constructor; [apply IH|apply IHl].
  - apply HDict. revert d. fix IHd 1. intros [|[k v] d]; constructor; [|apply IHd].
    split; apply IH.
  - apply HObject.
Qed.

Section encoder_facts.
Context `{FloatText}.

Lemma gen_then_ok (g1 g2 : gen) :
  snd g1 = None -> gen_then g1 g2 = (fst g1 ++ fst g2, snd g2).
Proof. destruct g1 as [c1 [e|]]; [done|done]. Qed.

Lemma atom_iterencode (v : pyval) (text : pystr) :
  atom_text v = Some text -> _iterencode v = yield text.
Proof.
  destruct v as [| [|] | z | x | s | l | l | d | cls]; simpl; try discriminate.
  all: by intros [= <-].
Qed.

Lemma concat_yield (chunk : pystr) : concat (fst (yield chunk)) = chunk.
Proof. simpl. apply app_nil_r. Qed.

(** An item of a list, as [_iterencode_list_loop] writes it. *)
Lemma list_item_text (buf : pystr) (v : pyval) :
  snd (_iterencode v) = None ->
  let item := match atom_text v with
              | Some text => yield (buf ++ text)
              | None => gen_then (yield buf) (_iterencode v)
              end in
  snd item = None /\ concat (fst item) = buf ++ enc v.
Proof.
  intros Hok. unfold enc. destruct (atom_text v) as [text|] eqn:Hatom; simpl.
  - rewrite (atom_iterencode _ _ Hatom). simpl. by rewrite !app_nil_r.
  - done.
Qed.

Lemma list_loop_text (l : list pyval) (buf : pystr) :
  Forall (fun v => snd (_iterencode v) = None) l ->
  snd (_iterencode_list_loop _iterencode buf l) = None
  /\ concat (fst (_iterencode_list_loop _iterencode buf l))
     = match l with
       | [] => str "]"
       | v :: l' => buf ++ enc v ++ items_text l'
       end.
Proof.
  intros Hl. revert buf. induction Hl as [|v l Hv Hl IH]; intros buf; [done|].
  cbn [_iterencode_list_loop].
  destruct (list_item_text buf v Hv) as [Hok Htext].
  rewrite gen_then_ok by exact Hok. cbn [fst snd].
  destruct (IH (str ", ")) as [IHok IHtext]. split; [done|].
  rewrite concat_app, Htext, IHtext, <- app_assoc. by destruct l.
Qed.

Lemma enc_list (l : list pyval) :
  Forall (fun v => snd (_iterencode v) = None) l ->
  snd (_iterencode (PList l)) = None
  /\ enc (PList l) = match l with
                     | [] => str "[]"
                     | v :: l' => str "[" ++ enc v ++ items_text l'
                     end.
Proof.
  intros Hl. unfold enc. cbn [_iterencode]. destruct l as [|v l]; [done|].
  unfold _iterencode_list. by apply list_loop_text.
Qed.

Lemma dict_loop_text (ps : list (pystr * pyval)) (first : bool) :
  Forall (fun kv => snd (_iterencode (snd kv)) = None) ps ->
  snd (_iterencode_dict_loop _iterencode first (map entry ps)) = None
  /\ concat (fst (_iterencode_dict_loop _iterencode first (map entry ps)))
     = match ps with
       | [] => str "}"
       | (k, v) :: ps' =>
           (if first then [] else str ", ")
           ++ encode_basestring_ascii k ++ str ": " ++ enc v ++ pairs_text ps'
       end.
Proof.
  intros Hps. revert first. induction Hps as [|[k v] ps Hv Hps IH]; intros first; [done|].
  cbn [map entry fst snd _iterencode_dict_loop key_text]. simpl in Hv.
  destruct (IH false) as [IHok IHtext].
  match goal with
  | |- context [gen_then ?g (_iterencode_dict_loop _ false _)] => set (vg := g)
  end.
  assert (Hvalue : snd vg = None /\ concat (fst vg) = enc v).
  { unfold vg, enc. destruct (atom_text v) as [text|] eqn:Hatom; [|done].
    by rewrite (atom_iterencode _ _ Hatom). }
  destruct Hvalue as [Hvok Hvtext].
  rewrite (gen_then_ok (if first then gen_done else yield (str ", ")))
    by (by destruct first).
  rewrite (gen_then_ok (yield _)) by done.
  rewrite (gen_then_ok (yield _)) by done.
  rewrite gen_then_ok by exact Hvok. cbn [fst snd]. split; [done|].
  rewrite !concat_app, Hvtext, IHtext. rewrite !concat_yield.
  destruct first; by destruct ps as [|[k' v'] ps].
Qed.

Lemma enc_dict (ps : list (pystr * pyval)) :
  Forall (fun kv => snd (_iterencode (snd kv)) = None) ps ->
  snd (_iterencode (PDict (map entry ps))) = None
  /\ enc (PDict (map entry ps))
     = match ps with
       | [] => str "{}"
       | (k, v) :: ps' =>
           str "{" ++ encode_basestring_ascii k ++ str ": " ++ enc v ++ pairs_text ps'
       end.
Proof.
  intros Hps. unfold enc. cbn [_iterencode]. destruct ps as [|[k v] ps]; [done|].
  unfold _iterencode_dict. cbn [map].
  change (entry (k, v) :: map entry ps) with (map entry ((k, v) :: ps)).
  destruct (dict_loop_text ((k, v) :: ps) true Hps) as [Hok Htext].
  rewrite gen_then_ok by done. cbn [fst snd]. split; [exact Hok|].
  rewrite concat_app, Htext. done.
Qed.

(** The entries of a native dict. *)
Lemma native_dict (d : list (pyval * pyval)) :
  json_native (PDict d) = true ->
  d = map entry (str_pairs d)
  /\ Forall (fun kv => str_restored (fst kv) = true /\ json_native (snd kv) = true)
       (str_pairs d)
  /\ NoDup (map fst (str_pairs d)).
Proof.
  cbn [json_native]. intros [Hall Hnodup]%andb_prop.
  apply bool_decide_eq_true in Hnodup. split; [|split; [|exact Hnodup]].
  - clear Hnodup. induction d as [|[k v] d IH]; [done|].
    simpl in Hall. apply andb_prop in Hall as [Hkv Hall].
    destruct k; try discriminate Hkv. simpl. by rewrite <- IH.
  - clear Hnodup. induction d as [|[k v] d IH]; [constructor|].
    simpl in Hall. apply andb_prop in Hall as [Hkv Hall].
    destruct k; try discriminate Hkv. simpl.
    apply andb_prop in Hkv as [Hk Hv]. constructor; [done|by apply IH].
Qed.

Lemma native_list (l : list pyval) :
  forallb json_native l = true -> Forall (fun v => json_native v = true) l.
Proof.
  induction l as [|v l IH]; [constructor|]. simpl.
  intros [Hv Hl]%andb_prop. constructor; [done|by apply IH].
Qed.

(** The encoder finishes on a native value. *)
Lemma native_ok (v : pyval) : json_native v = true -> snd (_iterencode v) = None.
Proof.
  induction v as [| b | z | x | s | l IH | l IH | d IH | cls] using pyval_ind;
    try done.
  - by destruct b.
  - cbn [json_native]. intros Hl%native_list. apply enc_list.
    apply Forall_forall. intros v Hv.
    rewrite Forall_forall in IH. rewrite Forall_forall in Hl. by apply IH, Hl.
  - intros Hd. destruct (native_dict d Hd) as (Heq & Hps & _).
    rewrite Heq. apply enc_dict. rewrite Heq in IH.
    apply Forall_forall. intros kv Hkv.
    rewrite Forall_forall in IH. rewrite Forall_forall in Hps.
    destruct (IH (entry kv)) as [_ Hv]; [by apply list_elem_of_fmap_2|].
    apply Hv. by apply Hps.
Qed.
End encoder_facts.

(** ** The decoder reads the encoder's text back *)

Section read_back.
Context `{FloatText}.

Lemma skip_ws_value (s : pystr) : starts_value s = true -> skip_ws s = s.
Proof.
  destruct s as [|c s]; [done|]. simpl.
  intros [[Hws _]%andb_prop _]%andb_prop. by destruct (is_ws c).
Qed.

Lemma scan_body_null (po pa : pystr -> scanned) (rest : pystr) :
  scan_body po pa (str "null" ++ rest) = Some (Ok (PNone, rest)).
Proof. reflexivity. Qed.

Lemma scan_body_bool (po pa : pystr -> scanned) (b : bool) (rest : pystr) :
  scan_body po pa ((if b then str "true" else str "false") ++ rest)
  = Some (Ok (PBool b, rest)).
Proof. by destruct b. Qed.

Lemma scan_body_str (po pa : pystr -> scanned) (s rest : pystr) :
  str_restored s = true ->
  scan_body po pa (encode_basestring_ascii s ++ rest) = Some (Ok (PStr s, rest)).
Proof.
  intros Hs. unfold encode_basestring_ascii, scan_body. cbn [app].
  rewrite N.eqb_refl, <- app_assoc. cbn [app].
  by rewrite scanstring_encode.
Qed.

Lemma scan_body_int (po pa : pystr -> scanned) (z : Z) (rest : pystr) :
  ends_number rest = true ->
  scan_body po pa (_intstr z ++ rest) = Some (Ok (PInt z, rest)).
Proof.
  intros Hrest. pose proof (match_number_intstr z rest Hrest) as Hnum.
  destruct (intstr_head z) as (c & t & Heq & Hc). rewrite Heq in Hnum |- *.
  unfold scan_body. cbn [app] in *.
  assert (Hne : forall k, k <> 45 -> ~ (48 <= k <= 57) -> (c =? k) = false /\ (k =? c) = false).
  { intros k Hk1 Hk2. split; apply N.eqb_neq; lia. }
  destruct (Hne QUOTE) as [-> _]; [done|unfold QUOTE; lia|].
  destruct (Hne 123) as [-> _]; [done|lia|].
  destruct (Hne 91) as [-> _]; [done|lia|].
  change (str "null") with (110 :: str "ull").
  change (str "true") with (116 :: str "rue").
  change (str "false") with (102 :: str "alse").
  cbn [strip_prefix].
  destruct (Hne 110) as [_ ->]; [done|lia|].
  destruct (Hne 116) as [_ ->]; [done|lia|].
  destruct (Hne 102) as [_ ->]; [done|lia|].
  rewrite Hnum. rewrite <- Heq. by rewrite parse_int_intstr.
Qed.

(** What [float_restored] says of a float that is no infinity. *)
Lemma float_restored_repr (x : pyfloat) :
  float_restored x = true ->
  (exists sign, x = SpecFloat.S754_infinity sign)
  \/ (floatstr x = float_repr x
      /\ exists integer frac exp,
           match_number (float_repr x) = Some (integer, frac, exp, [])
           /\ (frac <> [] \/ exp <> [])
           /\ float_of_str (integer ++ frac ++ exp) = x).
Proof.
  intros Hx.
  assert (Hrepr : match match_number (float_repr x) with
                  | Some (integer, frac, exp, []) =>
                      match frac, exp with
                      | [], [] => false
                      | _, _ => same_float (float_of_str (integer ++ frac ++ exp)) x
                      end
                  | _ => false
                  end = true ->
                  exists integer frac exp,
                    match_number (float_repr x) = Some (integer, frac, exp, [])
                    /\ (frac <> [] \/ exp <> [])
                    /\ float_of_str (integer ++ frac ++ exp) = x).
  { destruct (match_number (float_repr x)) as [[[[i f] e] [|c r]]|]; try discriminate.
    intros Hsame. exists i, f, e. split; [done|].
    destruct f as [|c f]; [destruct e as [|c e]; [discriminate|]|].
    all: split; [by auto|by apply same_float_eq]. }
  destruct x as [s| s| |s m e]; [|left; by eexists|discriminate|].
  all: right; split; [done|]; by apply Hrepr.
Qed.

Lemma scan_body_float (po pa : pystr -> scanned) (x : pyfloat) (rest : pystr) :
  float_restored x = true -> ends_number rest = true ->
  scan_body po pa (floatstr x ++ rest) = Some (Ok (PFloat x, rest)).
Proof.
  intros Hx Hrest.
  destruct (float_restored_repr x Hx) as [[[|] ->]|(-> & i & f & e & Hnum & Hfloat & Hback)];
    [reflexivity..|].
  pose proof (match_number_app _ _ _ _ rest Hnum Hrest) as Hnum'.
  destruct (match_number_head _ _ _ _ _ Hnum) as (c & t & Heq & Hc).
  rewrite Heq in Hnum' |- *. unfold scan_body. cbn [app] in *.
  assert (Hne : forall k, k <> 45 -> ~ (48 <= k <= 57) -> (c =? k) = false /\ (k =? c) = false).
  { intros k Hk1 Hk2. split; apply N.eqb_neq; lia. }
  destruct (Hne QUOTE) as [-> _]; [done|unfold QUOTE; lia|].
  destruct (Hne 123) as [-> _]; [done|lia|].
  destruct (Hne 91) as [-> _]; [done|lia|].
  change (str "null") with (110 :: str "ull").
  change (str "true") with (116 :: str "rue").
  change (str "false") with (102 :: str "alse").
  cbn [strip_prefix].
  destruct (Hne 110) as [_ ->]; [done|lia|].
  destruct (Hne 116) as [_ ->]; [done|lia|].
  destruct (Hne 102) as [_ ->]; [done|lia|].
  rewrite Hnum', Hback.
  destruct f as [|c' f]; [destruct e as [|c' e]|]; [by destruct Hfloat|done..].
Qed.

(** The text of a native value starts as a value does. *)
Lemma enc_starts_value (v : pyval) (rest : pystr) :
  json_native v = true -> starts_value (enc v ++ rest) = true.
Proof.
  intros Hv. destruct v as [| [|] | z | x | s | l | l | d | cls]; try done.
  - unfold enc. cbn [_iterencode yield fst concat]. rewrite app_nil_r.
    destruct (intstr_head z) as (c & t & -> & Hc). cbn [app starts_value].
    assert (Hws : is_ws c = false).
    { unfold is_ws. repeat (apply orb_false_iff; split); apply N.eqb_neq; lia. }
    rewrite Hws. cbn [negb andb].
    apply andb_true_iff; split; apply negb_true_iff, N.eqb_neq; lia.
  - unfold enc. cbn [_iterencode yield fst concat json_native] in *. rewrite app_nil_r.
    destruct (float_restored_repr x Hv)
      as [[[|] ->]|(-> & i & f & e & Hnum & _)]; [reflexivity..|].
    destruct (match_number_head _ _ _ _ _ Hnum) as (c & t & -> & Hc).
    cbn [app starts_value].
    assert (Hws : is_ws c = false).
    { unfold is_ws. repeat (apply orb_false_iff; split); apply N.eqb_neq; lia. }
    rewrite Hws. cbn [negb andb].
    apply andb_true_iff; split; apply negb_true_iff, N.eqb_neq; lia.
  - cbn [json_native] in Hv. apply native_list in Hv.
    destruct (enc_list l) as [_ ->].
    { eapply Forall_impl; [exact Hv|]. apply native_ok. }
    by destruct l.
  - destruct (native_dict d Hv) as (Heq & Hps & _). rewrite Heq.
    destruct (enc_dict (str_pairs d)) as [_ ->].
    { eapply Forall_impl; [exact Hps|]. intros kv [_ Hkv]. by apply native_ok. }
    by destruct (str_pairs d) as [|[k v] ps].
Qed.

Lemma ends_number_items (l : list pyval) (rest : pystr) :
  ends_number (items_text l ++ rest) = true.
Proof. by destruct l. Qed.

Lemma ends_number_pairs (ps : list (pystr * pyval)) (rest : pystr) :
  ends_number (pairs_text ps ++ rest) = true.
Proof. by destruct ps as [|[k v] ps]. Qed.

Lemma array_loop_reads (l : list pyval) (v : pyval) :
  Forall (fun v => json_native v = true /\ reads_back v) (v :: l) ->
  exists fuel0, forall fuel, (fuel0 <= fuel)%nat -> forall values rest,
    JSONArray_loop fuel (enc v ++ items_text l ++ rest) values
    = Some (Ok (PList (rev values ++ v :: l), rest)).
Proof.
  revert v. induction l as [|v' l IH]; intros v Hall.
  - apply Forall_cons in Hall as [[_ (fv & Hv)] _].
    exists (S fv). intros [|fuel] Hfuel values rest; [lia|].
    rewrite JSONArray_loop_S. unfold JSONArray_round.
    rewrite Hv by (done || lia). by cbn.
  - apply Forall_cons in Hall as [[_ (fv & Hv)] Hall].
    destruct (IH v' Hall) as (fl & Hl).
    apply Forall_cons in Hall as [[Hnative _] _].
    exists (S (max fv fl)). intros [|fuel] Hfuel values rest; [lia|].
    rewrite JSONArray_loop_S. unfold JSONArray_round.
    rewrite Hv by (apply ends_number_items || lia).
    cbn [items_text]. change (str ", ") with [44; 32]. cbn [app skip_ws is_ws N.eqb Pos.eqb orb].
    rewrite <- !app_assoc.
    rewrite skip_ws_value by (by apply enc_starts_value).
    rewrite Hl by lia. cbn [rev]. by rewrite <- app_assoc.
Qed.

(** [dict(pairs)] keeps pairs whose keys are distinct as they are. *)
Lemma dict_setitem_fresh (d : list (pystr * pyval)) (key : pystr) (value : pyval) :
  key ∉ map fst d -> dict_setitem d key value = d ++ [(key, value)].
Proof.
  induction d as [|[k v] d IH]; [done|]. simpl. intros Hnotin.
  apply not_elem_of_cons in Hnotin as [Hne Hnotin].
  destruct (decide (k = key)) as [->|_]; [done|]. by rewrite IH.
Qed.

Lemma dict_of_pairs_nodup (ps : list (pystr * pyval)) :
  NoDup (map fst ps) -> dict_of_pairs ps = map entry ps.
Proof.
  unfold dict_of_pairs. intros Hnodup. f_equal.
  assert (Hgen : forall acc, NoDup (map fst (acc ++ ps)) ->
    fold_left (fun d kv => dict_setitem d (fst kv) (snd kv)) ps acc = acc ++ ps).
  { clear. induction ps as [|[k v] ps IH]; intros acc Hnodup; simpl.
    - by rewrite app_nil_r.
    - rewrite dict_setitem_fresh.
      + rewrite IH; rewrite <- app_assoc; done.
      + rewrite map_app in Hnodup. apply NoDup_app in Hnodup as (_ & Hdisj & _).
        intros Hin. apply (Hdisj k Hin). simpl. left. }
  by apply (Hgen []).
Qed.

Lemma object_loop_reads (ps : list (pystr * pyval)) (k : pystr) (v : pyval) :
  Forall (fun kv => str_restored (fst kv) = true
                    /\ json_native (snd kv) = true /\ reads_back (snd kv)) ((k, v) :: ps) ->
  exists fuel0, forall fuel, (fuel0 <= fuel)%nat -> forall pairs rest,
    JSONObject_loop fuel
      (flat_map replace k ++ QUOTE :: str ": " ++ enc v ++ pairs_text ps ++ rest) pairs
    = Some (Ok (PDict (dict_of_pairs (rev pairs ++ (k, v) :: ps)), rest)).
Proof.
  revert k v. induction ps as [|[k' v'] ps IH]; intros k v Hall.
  - apply Forall_cons in Hall as [(Hk & Hnative & fv & Hv) _]. simpl in Hk, Hnative.
    exists (S fv). intros [|fuel] Hfuel pairs rest; [lia|].
    rewrite JSONObject_loop_S. unfold JSONObject_round.
    rewrite scanstring_encode by done.
    change (str ": ") with [58; 32]. cbn [rev app skip_ws is_ws N.eqb Pos.eqb orb].
    rewrite skip_ws_value by (by apply enc_starts_value).
    rewrite Hv by (done || lia). by cbn.
  - apply Forall_cons in Hall as [(Hk & Hnative & fv & Hv) Hall]. simpl in Hk, Hnative.
    destruct (IH k' v' Hall) as (fl & Hl).
    apply Forall_cons in Hall as [(Hk' & _) _]. simpl in Hk'.
    exists (S (max fv fl)). intros [|fuel] Hfuel pairs rest; [lia|].
    rewrite JSONObject_loop_S. unfold JSONObject_round.
    rewrite scanstring_encode by done.
    change (str ": ") with [58; 32]. cbn [rev app skip_ws is_ws N.eqb Pos.eqb orb].
    rewrite skip_ws_value by (by apply enc_starts_value).
    rewrite Hv by (apply ends_number_pairs || lia).
    cbn [pairs_text]. unfold encode_basestring_ascii.
    change (str ", ") with [44; 32].
    cbn [app skip_ws is_ws N.eqb Pos.eqb orb QUOTE].
    rewrite <- !app_assoc. cbn [app]. fold QUOTE.
    rewrite Hl by lia. cbn [rev]. by rewrite <- app_assoc.
Qed.

(** The scanner reads every native value back. *)
Lemma native_reads_back (v : pyval) : json_native v = true -> reads_back v.
Proof.
  induction v as [| b | z | x | s | l IH | l IH | d IH | cls] using pyval_ind;
    intros Hv; try discriminate Hv.
  - exists 1%nat. intros [|fuel] Hfuel rest _; [lia|].
    rewrite scan_once_S. apply scan_body_null.
  - exists 1%nat. intros [|fuel] Hfuel rest _; [lia|].
    rewrite scan_once_S. by destruct b.
  - exists 1%nat. intros [|fuel] Hfuel rest Hrest; [lia|].
    rewrite scan_once_S. unfold enc. cbn [_iterencode yield fst concat].
    rewrite app_nil_r. by apply scan_body_int.
  - exists 1%nat. intros [|fuel] Hfuel rest Hrest; [lia|].
    rewrite scan_once_S. unfold enc. cbn [_iterencode yield fst concat].
    rewrite app_nil_r. by apply scan_body_float.
  - exists 1%nat. intros [|fuel] Hfuel rest _; [lia|].
    rewrite scan_once_S. unfold enc. cbn [_iterencode yield fst concat].
    rewrite app_nil_r. by apply scan_body_str.
  - cbn [json_native] in Hv. apply native_list in Hv.
    assert (Hok : Forall (fun v => snd (_iterencode v) = None) l)
      by (eapply Forall_impl; [exact Hv|]; apply native_ok).
    destruct (enc_list l Hok) as [_ Henc]. unfold reads_back. rewrite Henc.
    destruct l as [|v l].
    + exists 1%nat. intros [|fuel] Hfuel rest _; [lia|]. by rewrite scan_once_S.
    + destruct (array_loop_reads l v) as (fl & Hl).
      { apply Forall_forall. intros u Hu.
        rewrite Forall_forall in IH. rewrite Forall_forall in Hv. split; auto. }
      exists (S fl). intros [|fuel] Hfuel rest _; [lia|].
      rewrite scan_once_S. change (str "[") with [91]. cbn [app].
      change (scan_body ?po ?pa (91 :: ?tail)) with (pa tail).
      unfold JSONArray. rewrite <- (app_assoc (enc v) (items_text l) rest).
      assert (Hnv : json_native v = true) by (by inversion Hv).
      pose proof (enc_starts_value v (items_text l ++ rest) Hnv) as Hstart.
      rewrite skip_ws_value by done.
      destruct (enc v ++ items_text l ++ rest) as [|c tail] eqn:Htext; [done|].
      simpl in Hstart.
      destruct (c =? 93); [by destruct (is_ws c)|].
      rewrite <- Htext. apply Hl. lia.
  - destruct (native_dict d Hv) as (Heq & Hps & Hnodup).
    remember (str_pairs d) as ps eqn:Hpairs. clear Hpairs Hv. subst d.
    assert (Hok : Forall (fun kv => snd (_iterencode (snd kv)) = None) ps).
    { eapply Forall_impl; [exact Hps|]. intros kv [_ Hkv]. by apply native_ok. }
    destruct (enc_dict ps Hok) as [_ Henc].
    unfold reads_back. rewrite Henc.
    rewrite <- (dict_of_pairs_nodup _ Hnodup).
    destruct ps as [|[k v] ps].
    + exists 1%nat. intros [|fuel] Hfuel rest _; [lia|]. by rewrite scan_once_S.
    + destruct (object_loop_reads ps k v) as (fl & Hl).
      { apply Forall_forall. intros kv Hkv.
        rewrite Forall_forall in IH. rewrite Forall_forall in Hps.
        destruct (Hps kv Hkv) as [Hk Hn]. repeat split; [done..|].
        destruct (IH (entry kv)) as [_ Hread]; [by apply list_elem_of_fmap_2|].
        by apply Hread. }
      exists (S fl). intros [|fuel] Hfuel rest _; [lia|].
      rewrite scan_once_S. change (str "{") with [123].
      unfold encode_basestring_ascii. cbn [app].
      change (scan_body ?po ?pa (123 :: ?tail)) with (po tail).
      unfold JSONObject. cbn [skip_ws is_ws QUOTE N.eqb Pos.eqb orb].
      rewrite <- !app_assoc. cbn [app]. fold QUOTE.
      by apply (Hl fuel ltac:(lia) []).
Qed.

(** [json.loads(json.dumps(v)) == v] for a native value. *)
Theorem json_loads_dumps (v : pyval) :
  json_native v = true ->
  exists text, json_dumps v = Ok text /\ json_loads text = Ok v.
Proof.
  intros Hv. exists (enc v). split.
  { unfold json_dumps, enc. pose proof (native_ok v Hv) as Hok.
    by destruct (_iterencode v) as [chunks [e|]]. }
  pose proof (enc_starts_value v [] Hv) as Hstart. rewrite app_nil_r in Hstart.
  assert (Hdecode : decode (enc v) = Some (Ok v)).
  { unfold decode. rewrite skip_ws_value by done.
    destruct (native_reads_back v Hv) as (f0 & Hread).
    destruct (scan_once_fuel (enc v)) as (r & Hr). rewrite Hr.
    unfold raw_decode in Hr.
    apply (scan_once_mono _ (max f0 (2 * length (enc v) + 1))) in Hr; [|lia].
    specialize (Hread (max f0 (2 * length (enc v) + 1)) ltac:(lia) [] eq_refl).
    rewrite app_nil_r in Hread. rewrite Hread in Hr. by injection Hr as <-. }
  unfold json_loads. destruct (enc v) as [|c t]; [done|].
  simpl in Hstart. destruct (c =? 65279); [|by rewrite Hdecode].
  by rewrite andb_false_r in Hstart.
Qed.
End read_back.

(** ** Tuples are written as lists *)

Section tuples.
Context `{FloatText}.

Lemma atom_text_listify (v : pyval) : atom_text (listify v) = atom_text v.
Proof. by destruct v. Qed.

Lemma iterencode_listify (v : pyval) : _iterencode (listify v) = _iterencode v.
Proof.
  induction v as [| b | z | x | s | l IH | l IH | d IH | cls] using pyval_ind;
    try done.
  - cbn [listify _iterencode]. destruct l as [|v l]; [done|].
    unfold _iterencode_list. cbn [map]. change (listify v :: map listify l)
      with (map listify (v :: l)).
    generalize (str "["). induction IH as [|u l' Hu _ IHl]; intros buf; [done|].
    cbn [map _iterencode_list_loop]. by rewrite atom_text_listify, Hu, IHl.
  - cbn [listify _iterencode]. destruct l as [|v l]; [done|].
    unfold _iterencode_list. cbn [map]. change (listify v :: map listify l)
      with (map listify (v :: l)).
    generalize (str "["). induction IH as [|u l' Hu _ IHl]; intros buf; [done|].
    cbn [map _iterencode_list_loop]. by rewrite atom_text_listify, Hu, IHl.
  - cbn [listify _iterencode]. destruct d as [|kv d]; [done|].
    unfold _iterencode_dict. cbn [map].
    change ((fst kv, listify (snd kv)) :: map (fun kv => (fst kv, listify (snd kv))) d)
      with (map (fun kv => (fst kv, listify (snd kv))) (kv :: d)).
    f_equal. generalize true.
    induction IH as [|[k u] d' [_ Hu] _ IHd]; intros first; [done|].
    cbn [map fst snd _iterencode_dict_loop]. simpl in Hu.
    by rewrite atom_text_listify, Hu, IHd.
Qed.
End tuples.

(** ** The encoder writes ASCII *)

Section ascii.
Context `{FloatText}.

Hypothesis float_repr_ascii : forall x, Forall is_ascii (float_repr x).

(** A text written out in the source. *)
Ltac ascii_literal := repeat constructor; unfold is_ascii; done.

Lemma hexdigit_ascii (d : N) : d < 16 -> is_ascii (hexdigit d).
Proof.
  intros Hd. unfold hexdigit, is_ascii. destruct (d <? 10); lia.
Qed.

Lemma format_04x_ascii (n : N) : Forall is_ascii (format_04x n).
Proof.
  unfold format_04x. repeat constructor; apply hexdigit_ascii, N.mod_lt; done.
Qed.

Lemma replace_ascii (c : N) : Forall is_ascii (replace c).
Proof.
  unfold replace.
  destruct (c =? BACKSLASH); [ascii_literal|].
  destruct (c =? QUOTE); [ascii_literal|].
  destruct (32 <=? c) eqn:H32; [destruct (c <=? 126) eqn:H126|]; cbn [andb].
  { apply N.leb_le in H126. repeat constructor. unfold is_ascii. lia. }
  all: repeat (match goal with
               | |- Forall _ (if ?b then _ else _) => destruct b; [ascii_literal|]
               end).
  all: destruct (c <? 65536); cbv zeta.
  all: repeat (match goal with
               | |- Forall _ (format_04x _) => apply format_04x_ascii
               | |- Forall _ (str _) => ascii_literal
               | |- Forall _ (_ ++ _) => apply Forall_app; split
               end).
Qed.

Lemma encode_basestring_ascii_ascii (s : pystr) :
  Forall is_ascii (encode_basestring_ascii s).
Proof.
  unfold encode_basestring_ascii. constructor; [unfold is_ascii, QUOTE; done|].
  apply Forall_app; split; [|ascii_literal].
  induction s as [|c s IH]; [constructor|]. cbn [flat_map].
  apply Forall_app; split; [apply replace_ascii|exact IH].
Qed.

Lemma intstr_ascii (z : Z) : Forall is_ascii (_intstr z).
Proof.
  assert (Hdigits : forall u, Forall is_ascii (uint_digits u)).
  { induction u; simpl; constructor; try done; unfold is_ascii; done. }
  destruct z; simpl; [ascii_literal|apply Hdigits|].
  constructor; [unfold is_ascii; done|apply Hdigits].
Qed.

Lemma floatstr_ascii (x : pyfloat) : Forall is_ascii (floatstr x).
Proof.
  unfold floatstr. destruct x as [| [|] | |]; try apply float_repr_ascii; ascii_literal.
Qed.

Lemma atom_text_ascii (v : pyval) (text : pystr) :
  atom_text v = Some text -> Forall is_ascii text.
Proof.
  destruct v as [| [|] | z | x | s | l | l | d | cls]; simpl; try discriminate.
  all: intros [= <-];
    first [ascii_literal | apply intstr_ascii | apply floatstr_ascii
          | apply encode_basestring_ascii_ascii].
Qed.

Lemma gen_then_chunks (P : pystr -> Prop) (g1 g2 : gen) :
  Forall P (fst g1) -> Forall P (fst g2) -> Forall P (fst (gen_then g1 g2)).
Proof.
  destruct g1 as [c1 [e|]]; simpl; [done|]. intros H1 H2. by apply Forall_app.
Qed.

(** Every chunk [json.dump] writes is ASCII, whether the encoder finishes or
    not. *)
Lemma iterencode_ascii (v : pyval) : Forall (Forall is_ascii) (fst (_iterencode v)).
Proof.
  assert (Hyield : forall text, Forall is_ascii text ->
                     Forall (Forall is_ascii) (fst (yield text)))
    by (intros; by repeat constructor).
  induction v as [| b | z | x | s | l IH | l IH | d IH | cls] using pyval_ind.
  - apply Hyield. ascii_literal.
  - destruct b; apply Hyield; ascii_literal.
  - apply Hyield, intstr_ascii.
  - apply Hyield, floatstr_ascii.
  - apply Hyield, encode_basestring_ascii_ascii.
  - cbn [_iterencode]. destruct l as [|v l]; [apply Hyield; ascii_literal|].
    unfold _iterencode_list.
    assert (Hbuf : Forall is_ascii (str "[")) by ascii_literal. revert Hbuf.
    generalize (str "["). induction IH as [|u l' Hu _ IHl]; intros buf Hbuf.
    { apply Hyield. ascii_literal. }
    cbn [_iterencode_list_loop]. apply gen_then_chunks; [|apply IHl; ascii_literal].
    destruct (atom_text u) as [text|] eqn:Hatom.
    + apply Hyield, Forall_app. split; [done|by eapply atom_text_ascii].
    + apply gen_then_chunks; [by apply Hyield|done].
  - cbn [_iterencode]. destruct l as [|v l]; [apply Hyield; ascii_literal|].
    unfold _iterencode_list.
    assert (Hbuf : Forall is_ascii (str "[")) by ascii_literal. revert Hbuf.
    generalize (str "["). induction IH as [|u l' Hu _ IHl]; intros buf Hbuf.
    { apply Hyield. ascii_literal. }
    cbn [_iterencode_list_loop]. apply gen_then_chunks; [|apply IHl; ascii_literal].
    destruct (atom_text u) as [text|] eqn:Hatom.
    + apply Hyield, Forall_app. split; [done|by eapply atom_text_ascii].
    + apply gen_then_chunks; [by apply Hyield|done].
  - cbn [_iterencode]. destruct d as [|kv d]; [apply Hyield; ascii_literal|].
    unfold _iterencode_dict. apply gen_then_chunks; [apply Hyield; ascii_literal|].
    generalize true. induction IH as [|[k u] d' [_ Hu] _ IHd]; intros first.
    { apply Hyield. ascii_literal. }
    cbn [_iterencode_dict_loop]. simpl in Hu.
    destruct (key_text k) as [key|e]; [|constructor].
    apply gen_then_chunks; [destruct first; [constructor|apply Hyield; ascii_literal]|].
    apply gen_then_chunks; [apply Hyield, encode_basestring_ascii_ascii|].
    apply gen_then_chunks; [apply Hyield; ascii_literal|].
    apply gen_then_chunks; [|apply IHd].
    destruct (atom_text u) as [text|] eqn:Hatom; [|done].
    by eapply Hyield, atom_text_ascii.
  - constructor.
Qed.

Lemma concat_ascii (chunks : list pystr) :
  Forall (Forall is_ascii) chunks -> Forall is_ascii (concat chunks).
Proof.
  induction 1 as [|chunk chunks Hc _ IH]; [constructor|]. simpl. by apply Forall_app.
Qed.
End ascii.

(** ** A blank document *)

Section blank.
Context `{FloatText}.

(** [json.loads] of nothing but blanks raises. *)
Lemma json_loads_blank (s : pystr) :
  forallb is_ws s = true -> json_loads s = Raise (JSONDecodeError "Expecting value").
Proof.
  intros Hs.
  assert (Hskip : skip_ws s = []).
  { induction s as [|c s IH]; [done|]. simpl in *.
    apply andb_prop in Hs as [-> Hs]. by apply IH. }
  assert (Hdecode : decode s = Some (Raise (JSONDecodeError "Expecting value")))
    by (unfold decode; by rewrite Hskip).
  unfold json_loads. destruct s as [|c s']; [by rewrite Hdecode|].
  simpl in Hs. apply andb_prop in Hs as [Hc _].
  destruct (N.eqb_spec c 65279) as [->|_]; [done|by rewrite Hdecode].
Qed.
End blank.

(** ** The run, step by step *)

Section run_facts.
Context `{FloatText}.
Context {Scopes : Type} (CALENDAR : Scopes).

Abbreviation World' := (@World Scopes).
Abbreviation process' := (@process Scopes).

(** Writing chunks to a file opened for writing adds their concatenation. *)
Lemma write_chunks_spec (path : string) (chunks : list pystr) (p : process') (c : pystr) :
  files p !! path = Some c ->
  write_chunks {| name := path; fmode := W |} chunks p =
  ({| files := <[path := c ++ concat chunks]> (files p);
      log := log p ++ map (EvWrite path) chunks |}, Ok tt).
Proof.
  revert p c. induction chunks as [|chunk chunks IH]; intros p c Hc; simpl.
  - rewrite !app_nil_r. rewrite insert_id by done. by destruct p.
  - unfold bind, write; simpl. rewrite Hc; simpl.
    rewrite (IH _ (c ++ chunk)); simpl.
    + rewrite insert_insert_eq, <- !app_assoc. done.
    + by rewrite lookup_insert_eq.
Qed.

(** The whole run, as a decision tree over what the script meets. *)
Lemma run_unfold (w : World') (fs : gmap string pystr) :
  run CALENDAR w fs =
  match fs !! CREDENTIALS with
  | None => ({| files := fs; log := [] |}, Raise FileNotFoundError)
  | Some content =>
      match json_loads content with
      | Raise e => ({| files := fs; log := load_log |}, Raise e)
      | Ok secrets =>
          match init_check w secrets DEFAULT_REDIRECT_URI with
          | Some e =>
              ({| files := fs;
                  log := load_log ++ [EvInit secrets None; EvInitRaised e] |}, Raise e)
          | None =>
              let m := manager_of secrets in
              let called :=
                load_log ++ [EvInit secrets None; EvManager m; EvAuthenticate m [CALENDAR]] in
              match local_server_flow w m [CALENDAR] with
              | Raise e => ({| files := fs; log := called ++ [EvAuthRaised e] |}, Raise e)
              | Ok user_info =>
                  ({| files := <[USER_TOKEN := concat (fst (_iterencode user_info))]> fs;
                      log := called ++ EvReturned user_info
                               :: dump_log (fst (_iterencode user_info)) |},
                   match snd (_iterencode user_info) with
                   | None => Ok tt
                   | Some e => Raise e
                   end)
              end
          end
      end
  end.
Proof.
  unfold run, get_calendar_details, with_open, load_log, dump_log, CREDENTIALS, USER_TOKEN.
  unfold bind at 1. unfold bind at 1.
  unfold open at 1; simpl.
  destruct (fs !! "credentials.json") as [content|] eqn:Hc; [|done].
  unfold finally, json_load, bind at 1, read; simpl. rewrite Hc.
  destruct (json_loads content) as [secrets|e]; simpl; [|done].
  unfold GoogleOAuthManager, bind at 1; simpl.
  destruct (init_check w secrets DEFAULT_REDIRECT_URI) as [e|]; simpl; [done|].
  unfold bind at 1; simpl.
  unfold authenticate_via_local_server, bind at 1; simpl.
  fold (manager_of secrets).
  destruct (local_server_flow w (manager_of secrets) [CALENDAR]) as [user_info|e];
    simpl; [|done].
  unfold bind at 1; simpl. unfold json_dump.
  destruct (_iterencode user_info) as [chunks stop]; simpl.
  unfold bind at 1.
  rewrite (write_chunks_spec "user_token.json" chunks _ []); simpl.
  2: by rewrite lookup_insert_eq.
  rewrite insert_insert_eq.
  destruct stop; simpl; rewrite <- ?app_assoc; simpl; rewrite <- ?app_assoc; done.
Qed.
End run_facts.

(** ** The claims about the run *)

Section claims.
Context `{FloatText}.
Context {Scopes : Type} (CALENDAR : Scopes).

Abbreviation World' := (@World Scopes).
Abbreviation run' := (run CALENDAR).

Lemma Forall_dump_log (P : @event Scopes -> Prop) (chunks : list pystr) :
  P (EvOpen USER_TOKEN W) -> (forall chunk, P (EvWrite USER_TOKEN chunk)) ->
  P (EvClose USER_TOKEN) -> Forall P (dump_log chunks).
Proof.
  intros Hopen Hwrite Hclose. unfold dump_log.
  apply List.Forall_cons; [done|]. apply Forall_app; split.
  - apply Forall_forall. intros ev Hev.
    apply list_elem_of_In, in_map_iff in Hev as (chunk & <- & _). apply Hwrite.
  - by repeat constructor.
Qed.

(** The outcomes of a run: the log and the files along each branch. *)
Ltac trace_run w fs :=
  rewrite ?(run_unfold CALENDAR w fs) in *; unfold load_log in *;
  destruct (fs !! CREDENTIALS) as [?content|] eqn:?Hcred; simpl in *;
  [destruct (json_loads _) as [?secrets|?e] eqn:?Hload; simpl in *;
   [destruct (init_check w _ _) as [?e|] eqn:?Hinit; simpl in *;
    [|destruct (local_server_flow w _ _) as [?user_info|?e] eqn:?Hflow; simpl in *]
   |]
  |].

(** Membership of an event in a log that is known but for the written chunks. *)
Ltac in_log H :=
  repeat (destruct H as [H|H]; [try discriminate H|]);
  try (apply in_app_or in H as [H|[H|[]]];
       [apply in_map_iff in H as (? & H & _)|]; try discriminate H);
  try contradiction.

(** C1 (amended): on a successful run [user_token.json] holds exactly the
    JSON serialization of the structure the authenticate call returned;
    and when that structure is made of [None], booleans, integers, floats
    other than [NaN] (the text of a finite one being read back as the same
    float), strings in which no high surrogate is directly followed by a
    low one, lists and dicts with such strings as keys, parsing the file
    gives the structure back. *)
Theorem C1_token_round_trip (w : World') (fs : gmap string pystr) (user_info : pyval) :
  (run' w fs).2 = Ok tt ->
  In (EvReturned user_info) (log (run' w fs).1) ->
  exists text,
    json_dumps user_info = Ok text
    /\ files (run' w fs).1 !! USER_TOKEN = Some text
    /\ (json_native user_info = true -> json_loads text = Ok user_info).
Proof.
  intros Hok Hin. trace_run w fs; try discriminate Hok; in_log Hin.
  inversion Hin; subst. unfold json_dumps.
  destruct (_iterencode user_info) as [chunks [e|]] eqn:Henc; simpl in *; [discriminate|].
  exists (concat chunks). split; [done|]. split; [by rewrite lookup_insert_eq|].
  intros Hnative. destruct (json_loads_dumps user_info Hnative) as (text & Hdumps & Hloads).
  unfold json_dumps in Hdumps. rewrite Henc in Hdumps. by injection Hdumps as <-.
Qed.

(** C2: whatever the secrets file holds, the scope list passed to the
    authenticate call has exactly one entry, the calendar scope. *)
Theorem C2_scopes_calendar_only (w : World') (fs : gmap string pystr)
    (manager : OAuthManager) (scopes : list Scopes) :
  In (EvAuthenticate manager scopes) (log (run' w fs).1) ->
  scopes = [CALENDAR] /\ length scopes = 1%nat.
Proof.
  intros Hin. trace_run w fs; in_log Hin. all: by inversion Hin.
Qed.

(** C3: when the authenticate call raises, the run ends with that fault,
    [user_token.json] is neither created nor modified, and no file at all
    changes. *)
Theorem C3_auth_fault_leaves_token (w : World') (fs : gmap string pystr) (e : exn) :
  In (EvAuthRaised e) (log (run' w fs).1) ->
  (run' w fs).2 = Raise e
  /\ files (run' w fs).1 !! USER_TOKEN = fs !! USER_TOKEN
  /\ files (run' w fs).1 = fs
  /\ Forall (fun ev => ~ touches USER_TOKEN ev) (log (run' w fs).1).
Proof.
  intros Hin. trace_run w fs; in_log Hin.
  inversion Hin; subst. repeat split; try done.
  repeat constructor; simpl; tauto.
Qed.


(** C5: a successful run leaves in [user_token.json] the serialization of
    the structure it obtained, and nothing else: the file was opened for
    writing (truncated) before the first write, and the content is the same
    whatever the file held before. *)
Theorem C5_overwrite (w : World') (fs : gmap string pystr) (prior : pystr)
    (user_info : pyval) :
  fs !! USER_TOKEN = Some prior ->
  (run' w fs).2 = Ok tt ->
  In (EvReturned user_info) (log (run' w fs).1) ->
  exists text,
    json_dumps user_info = Ok text
    /\ files (run' w fs).1 !! USER_TOKEN = Some text
    /\ (forall prior', files (run' w (<[USER_TOKEN := prior']> fs)).1 !! USER_TOKEN = Some text)
    /\ files (run' w (delete USER_TOKEN fs)).1 !! USER_TOKEN = Some text.
Proof.
  intros Hprior Hok Hin.
  assert (Hins : forall prior', <[USER_TOKEN := prior']> fs !! CREDENTIALS = fs !! CREDENTIALS)
    by (intros; by rewrite lookup_insert_ne).
  assert (Hdel : delete USER_TOKEN fs !! CREDENTIALS = fs !! CREDENTIALS)
    by (by rewrite lookup_delete_ne).
  rewrite (run_unfold CALENDAR w (delete USER_TOKEN fs)), Hdel.
  setoid_rewrite (run_unfold CALENDAR w (<[USER_TOKEN := _]> fs)).
  setoid_rewrite Hins.
  trace_run w fs; try discriminate Hok; in_log Hin.
  inversion Hin; subst. unfold json_dumps.
  destruct (_iterencode user_info) as [chunks [e|]]; simpl in *; [discriminate|].
  exists (concat chunks). repeat split; intros; by rewrite ?lookup_insert_eq.
Qed.

(** C6: the script passes no redirect URI to the constructor, and the
    manager it obtains redirects to [http://localhost:8080]: host
    [localhost], port 8080. *)
Theorem C6_default_redirect (w : World') (fs : gmap string pystr)
    (manager : OAuthManager) :
  In (EvManager manager) (log (run' w fs).1) ->
  In (EvInit (client_secrets_dict manager) None) (log (run' w fs).1)
  /\ redirect_uri manager = str "http://localhost:8080"
  /\ uri_host_port (redirect_uri manager) = Some (str "localhost", 8080).
Proof.
  intros Hin. trace_run w fs; in_log Hin.
  all: inversion Hin; subst; simpl; repeat split; auto 10.
Qed.

(** C7: in every run, successful or not, [credentials.json] is opened for
    reading only, no event writes to it, and its contents at the end are
    those of the start. *)
Theorem C7_credentials_read_only (w : World') (fs : gmap string pystr) :
  files (run' w fs).1 !! CREDENTIALS = fs !! CREDENTIALS
  /\ Forall (fun ev => ~ touches CREDENTIALS ev) (log (run' w fs).1)
  /\ (forall m, In (EvOpen CREDENTIALS m) (log (run' w fs).1) -> m = R).
Proof.
  trace_run w fs; (split; [|split]).
  all: try (intros m Hin; in_log Hin; by inversion Hin).
  all: try done.
  all: try (by rewrite lookup_insert_ne).
  all: repeat (apply List.Forall_cons; [simpl; unfold CREDENTIALS; intuition congruence|]).
  all: try apply List.Forall_nil.
  apply Forall_dump_log; simpl; unfold CREDENTIALS, USER_TOKEN; intuition congruence.
Qed.






(** C9: when the returned structure has no JSON encoding, the encoder raises
    after [user_token.json] was opened for writing: the run ends with that
    fault, and the file holds exactly the chunks written before it (none,
    or the beginning of a document), whatever it held before. *)
Theorem C9_dump_fault_truncates (w : World') (fs : gmap string pystr)
    (user_info : pyval) (e : exn) :
  In (EvReturned user_info) (log (run' w fs).1) ->
  snd (_iterencode user_info) = Some e ->
  (run' w fs).2 = Raise e
  /\ In (EvOpen USER_TOKEN W) (log (run' w fs).1)
  /\ files (run' w fs).1 !! USER_TOKEN = Some (concat (fst (_iterencode user_info)))
  /\ json_dumps user_info = Raise e
  /\ (forall prior, files (run' w (<[USER_TOKEN := prior]> fs)).1 !! USER_TOKEN
                    = Some (concat (fst (_iterencode user_info)))).
Proof.
  intros Hin Hstop.
  assert (Hins : forall prior, <[USER_TOKEN := prior]> fs !! CREDENTIALS = fs !! CREDENTIALS)
    by (intros; by rewrite lookup_insert_ne).
  setoid_rewrite (run_unfold CALENDAR w (<[USER_TOKEN := _]> fs)).
  setoid_rewrite Hins.
  trace_run w fs; in_log Hin.
  inversion Hin; subst. unfold json_dumps.
  destruct (_iterencode user_info) as [chunks stop]; simpl in *; subst stop.
  repeat split; auto 10; intros; by rewrite lookup_insert_eq.
Qed.

(** C10 (amended): what a successful run leaves in [user_token.json] is a
    function of the structure the authenticate call returned as [json.dump]
    goes through it, and of nothing else: two runs, on any file systems and
    against any behaviour of the library, that obtain structures with the
    same values of the same types in the same order, a tuple counting as a
    list, write the same text. *)
Theorem C10_deterministic (w1 w2 : World') (fs1 fs2 : gmap string pystr)
    (user_info1 user_info2 : pyval) :
  (run' w1 fs1).2 = Ok tt -> (run' w2 fs2).2 = Ok tt ->
  In (EvReturned user_info1) (log (run' w1 fs1).1) ->
  In (EvReturned user_info2) (log (run' w2 fs2).1) ->
  listify user_info1 = listify user_info2 ->
  files (run' w1 fs1).1 !! USER_TOKEN = files (run' w2 fs2).1 !! USER_TOKEN
  /\ exists text, json_dumps user_info1 = Ok text
                  /\ json_dumps user_info2 = Ok text
                  /\ files (run' w1 fs1).1 !! USER_TOKEN = Some text.
Proof.
  intros Hok1 Hok2 Hin1 Hin2 Hsame.
  assert (Hone : forall w fs user_info, (run' w fs).2 = Ok tt ->
    In (EvReturned user_info) (log (run' w fs).1) ->
    exists text, json_dumps (listify user_info) = Ok text
                 /\ json_dumps user_info = Ok text
                 /\ files (run' w fs).1 !! USER_TOKEN = Some text).
  { clear. intros w fs user_info Hok Hin.
    trace_run w fs; try discriminate Hok; in_log Hin.
    inversion Hin; subst. unfold json_dumps. rewrite iterencode_listify.
    destruct (_iterencode user_info) as [chunks [e|]]; simpl in *; [discriminate|].
    exists (concat chunks). by rewrite lookup_insert_eq. }
  destruct (Hone w1 fs1 user_info1 Hok1 Hin1) as (text1 & Hl1 & Hd1 & ->).
  destruct (Hone w2 fs2 user_info2 Hok2 Hin2) as (text2 & Hl2 & Hd2 & ->).
  rewrite Hsame, Hl2 in Hl1. injection Hl1 as <-. eauto.
Qed.

(** ** Further properties of the run *)

Lemma credentials_kept (w : World') (fs : gmap string pystr) :
  files (run' w fs).1 !! CREDENTIALS = fs !! CREDENTIALS.
Proof. trace_run w fs; try done. by rewrite lookup_insert_ne. Qed.

Lemma handles_load_log (rest : list (@event Scopes)) :
  handles (load_log ++ rest) [] = handles rest [].
Proof. reflexivity. Qed.

Lemma handles_dump_log (chunks : list pystr) :
  handles (@dump_log Scopes chunks) [] = Some [].
Proof.
  unfold dump_log. cbn [handles].
  rewrite bool_decide_eq_false_2 by (apply not_elem_of_nil).
  induction chunks as [|chunk chunks IH]; [reflexivity|].
  cbn [map app handles]. by rewrite bool_decide_eq_true_2 by (apply list_elem_of_here).
Qed.

(** X1: the client secrets handed to the constructor are the parsed contents
    of [credentials.json], and no redirect URI is handed over with them. *)
Theorem X1_secrets_from_credentials (w : World') (fs : gmap string pystr)
    (secrets : pyval) (redirect : option pystr) :
  In (EvInit secrets redirect) (log (run' w fs).1) ->
  redirect = None
  /\ exists content, fs !! CREDENTIALS = Some content /\ json_loads content = Ok secrets.
Proof.
  intros Hin. trace_run w fs; in_log Hin.
  all: inversion Hin; subst; eauto.
Qed.

(** X2: the authenticate call is made on the manager the constructor
    returned, built from the parsed secrets and accepted by the library. *)
Theorem X2_authenticate_on_constructed (w : World') (fs : gmap string pystr)
    (manager : OAuthManager) (scopes : list Scopes) :
  In (EvAuthenticate manager scopes) (log (run' w fs).1) ->
  In (EvManager manager) (log (run' w fs).1)
  /\ init_check w (client_secrets_dict manager) (redirect_uri manager) = None
  /\ exists content, fs !! CREDENTIALS = Some content
                     /\ json_loads content = Ok (client_secrets_dict manager).
Proof.
  intros Hin. trace_run w fs; in_log Hin.
  all: inversion Hin; subst; simpl; eauto 10.
Qed.

(** X3: when the constructor raises, the run ends with that fault, the
    authenticate call is never made and no file changes. *)
Theorem X3_constructor_fault (w : World') (fs : gmap string pystr) (e : exn) :
  In (EvInitRaised e) (log (run' w fs).1) ->
  (run' w fs).2 = Raise e
  /\ files (run' w fs).1 = fs
  /\ (forall manager scopes, ~ In (EvAuthenticate manager scopes) (log (run' w fs).1)).
Proof.
  intros Hin. trace_run w fs; in_log Hin.
  inversion Hin; subst. repeat split; try done.
  intros manager scopes Hauth. in_log Hauth.
Qed.

(** X4: the run succeeds exactly when [credentials.json] exists and parses,
    the constructor accepts the secrets, the flow returns a structure, and
    the encoder finishes on that structure. *)
Theorem X4_success_iff (w : World') (fs : gmap string pystr) :
  (run' w fs).2 = Ok tt <->
  exists content secrets user_info,
    fs !! CREDENTIALS = Some content
    /\ json_loads content = Ok secrets
    /\ init_check w secrets DEFAULT_REDIRECT_URI = None
    /\ local_server_flow w (manager_of secrets) [CALENDAR] = Ok user_info
    /\ snd (_iterencode user_info) = None.
Proof.
  split.
  - intros Hok. trace_run w fs; try discriminate Hok.
    exists content, secrets, user_info. repeat split; try done.
    by destruct (snd (_iterencode user_info)).
  - intros (content & secrets & user_info & Hc & Hl & Hi & Hf & He).
    rewrite (run_unfold CALENDAR w fs), Hc, Hl, Hi. cbv zeta. rewrite Hf. simpl.
    by rewrite He.
Qed.

(** X5: no run changes, creates or removes any file other than
    [user_token.json]. *)
Theorem X5_only_token_file_changes (w : World') (fs : gmap string pystr) :
  delete USER_TOKEN (files (run' w fs).1) = delete USER_TOKEN fs
  /\ (forall path, path <> USER_TOKEN -> files (run' w fs).1 !! path = fs !! path).
Proof.
  trace_run w fs; split; try done.
  - apply delete_insert_eq.
  - intros path Hpath. by rewrite lookup_insert_ne.
Qed.

(** X6: in every run, failed or not, each file is read or written only
    while it is open, no file is opened twice, and every file that was
    opened is closed when the run ends. *)
Theorem X6_files_closed (w : World') (fs : gmap string pystr) :
  handles (log (run' w fs).1) [] = Some [].
Proof.
  rewrite (run_unfold CALENDAR w fs). cbv zeta.
  destruct (fs !! CREDENTIALS) as [content|]; [|done].
  destruct (json_loads content) as [secrets|e]; [|done].
  destruct (init_check w secrets DEFAULT_REDIRECT_URI) as [e|]; [done|].
  destruct (local_server_flow w (manager_of secrets) [CALENDAR]) as [user_info|e];
    [|done].
  cbn [fst log]. rewrite <- app_assoc, handles_load_log. cbn [app handles].
  apply handles_dump_log.
Qed.

(** X7: a run does not depend on the run before it: started on the files an
    earlier run left, the script makes the same calls and ends the same way
    as on the files before that run. *)
Theorem X7_unaffected_by_previous_run (w1 w2 : World') (fs : gmap string pystr) :
  (run CALENDAR w2 (files (run CALENDAR w1 fs).1)).2 = (run CALENDAR w2 fs).2
  /\ log (run CALENDAR w2 (files (run CALENDAR w1 fs).1)).1
     = log (run CALENDAR w2 fs).1.
Proof.
  pose proof (credentials_kept w1 fs) as Hkept.
  rewrite (run_unfold CALENDAR w2 (files _)), (run_unfold CALENDAR w2 fs), Hkept.
  cbv zeta.
  destruct (fs !! CREDENTIALS) as [content|]; [|done].
  destruct (json_loads content) as [secrets|e]; [|done].
  destruct (init_check w2 secrets DEFAULT_REDIRECT_URI) as [e|]; [done|].
  by destruct (local_server_flow w2 (manager_of secrets) [CALENDAR]) as [user_info|e].
Qed.

(** X8: running the script again, against the same behaviour of the
    library, reproduces the run entirely: same calls, same outcome, same
    files. *)
Theorem X8_rerun_idempotent (w : World') (fs : gmap string pystr) :
  run CALENDAR w (files (run CALENDAR w fs).1) = run CALENDAR w fs.
Proof.
  pose proof (credentials_kept w fs) as Hkept.
  rewrite (run_unfold CALENDAR w (files _)), Hkept.
  rewrite !(run_unfold CALENDAR w fs). cbv zeta.
  destruct (fs !! CREDENTIALS) as [content|]; [|done].
  destruct (json_loads content) as [secrets|e]; [|done].
  destruct (init_check w secrets DEFAULT_REDIRECT_URI) as [e|]; [done|].
  destruct (local_server_flow w (manager_of secrets) [CALENDAR]) as [user_info|e];
    [|done].
  cbn [fst files]. by rewrite insert_insert_eq.
Qed.

(** X9: once the authenticate call has returned, [user_token.json] holds
    ASCII characters only, whatever the returned structure holds and whether
    or not the dump finishes (given that the interpreter prints floats in
    ASCII). *)
Theorem X9_token_file_ascii (w : World') (fs : gmap string pystr) (user_info : pyval) :
  (forall x, Forall is_ascii (float_repr x)) ->
  In (EvReturned user_info) (log (run' w fs).1) ->
  exists content, files (run' w fs).1 !! USER_TOKEN = Some content
                  /\ Forall is_ascii content.
Proof.
  intros Hrepr Hin. trace_run w fs; in_log Hin.
  inversion Hin; subst. eexists. split; [by rewrite lookup_insert_eq|].
  by apply concat_ascii, iterencode_ascii.
Qed.

(** X10: a [credentials.json] that is empty or holds only blanks makes the
    run end with the decoder's "Expecting value" error, after the file was
    read and closed and before anything else happens. *)
Theorem X10_blank_credentials (w : World') (fs : gmap string pystr) (content : pystr) :
  fs !! CREDENTIALS = Some content ->
  forallb is_ws content = true ->
  (run' w fs).2 = Raise (JSONDecodeError "Expecting value")
  /\ log (run' w fs).1 = load_log
  /\ files (run' w fs).1 = fs.
Proof.
  intros Hc Hblank. rewrite (run_unfold CALENDAR w fs), Hc.
  by rewrite (json_loads_blank content Hblank).
Qed.

(** X11: on a successful run whose returned structure is native but for its
    tuples, parsing [user_token.json] gives the structure with every tuple
    turned into a list. *)
Theorem X11_tuples_read_back_as_lists (w : World') (fs : gmap string pystr)
    (user_info : pyval) :
  (run' w fs).2 = Ok tt ->
  In (EvReturned user_info) (log (run' w fs).1) ->
  json_native (listify user_info) = true ->
  exists text, files (run' w fs).1 !! USER_TOKEN = Some text
               /\ json_loads text = Ok (listify user_info).
Proof.
  intros Hok Hin Hnative. trace_run w fs; try discriminate Hok; in_log Hin.
  inversion Hin; subst. eexists. split; [by rewrite lookup_insert_eq|].
  destruct (json_loads_dumps _ Hnative) as (text & Hdumps & Hloads).
  unfold json_dumps in Hdumps. rewrite iterencode_listify in Hdumps.
  destruct (_iterencode user_info) as [chunks [e|]]; [discriminate|].
  by injection Hdumps as <-.
Qed.
End claims.

(** ** The claims at concrete runs *)

(** Membership in a log that computes. *)
Ltac in_concrete := vm_compute; repeat (first [left; reflexivity | right]).

(** C1 as it is stated fails: a token whose scopes are a tuple is written as
    a JSON array, which is read back as a list. *)
Lemma C1_tuple_not_restored :
  (example_run (consenting example_token_tuple) example_fs).2 = Ok tt
  /\ In (EvReturned example_token_tuple)
        (log (example_run (consenting example_token_tuple) example_fs).1)
  /\ exists text,
       files (example_run (consenting example_token_tuple) example_fs).1 !! USER_TOKEN
       = Some text
       /\ @json_dumps example_floats example_token_tuple = Ok text
       /\ @json_loads example_floats text <> Ok example_token_tuple.
Proof.
  split; [by vm_compute|]. split; [in_concrete|].
  eexists. split; [by vm_compute|]. split; [by vm_compute|].
  vm_compute. discriminate.
Qed.


(** C10 as it is stated fails: two dicts with the same entries, inserted in
    different orders, are equal, and are written differently. *)
Lemma C10_equal_structures_differ :
  py_eq example_token_ab example_token_ba = true
  /\ (example_run (consenting example_token_ab) example_fs).2 = Ok tt
  /\ (example_run (consenting example_token_ba) example_fs).2 = Ok tt
  /\ In (EvReturned example_token_ab)
        (log (example_run (consenting example_token_ab) example_fs).1)
  /\ In (EvReturned example_token_ba)
        (log (example_run (consenting example_token_ba) example_fs).1)
  /\ files (example_run (consenting example_token_ab) example_fs).1 !! USER_TOKEN
     <> files (example_run (consenting example_token_ba) example_fs).1 !! USER_TOKEN.
Proof.
  split; [by vm_compute|]. split; [by vm_compute|]. split; [by vm_compute|].
  split; [in_concrete|]. split; [in_concrete|]. vm_compute. discriminate.
Qed.

Lemma C1_token_round_trip_witness :
  (example_run (consenting example_token_float) example_fs).2 = Ok tt
  /\ In (EvReturned example_token_float)
        (log (example_run (consenting example_token_float) example_fs).1)
  /\ @json_native example_floats example_token_float = true
  /\ exists text,
       @json_dumps example_floats example_token_float = Ok text
       /\ files (example_run (consenting example_token_float) example_fs).1 !! USER_TOKEN
          = Some text
       /\ @json_loads example_floats text = Ok example_token_float.
Proof.
  assert (Hok : (example_run (consenting example_token_float) example_fs).2 = Ok tt)
    by (by vm_compute).
  assert (Hin : In (EvReturned example_token_float)
                   (log (example_run (consenting example_token_float) example_fs).1))
    by in_concrete.
  assert (Hnative : @json_native example_floats example_token_float = true)
    by (by vm_compute).
  split; [exact Hok|]. split; [exact Hin|]. split; [exact Hnative|].
  destruct (@C1_token_round_trip example_floats string example_calendar
              (consenting example_token_float) example_fs example_token_float Hok Hin)
    as (text & Hdumps & Hfile & Hloads).
  exists text. split; [exact Hdumps|]. split; [exact Hfile|]. exact (Hloads Hnative).
Defined.

Lemma C2_scopes_calendar_only_witness :
  In (EvAuthenticate (manager_of example_secrets) [example_calendar])
     (log (example_run (consenting example_token) example_fs).1)
  /\ [example_calendar] = [example_calendar]
  /\ length [example_calendar] = 1%nat.
Proof.
  assert (Hin : In (EvAuthenticate (manager_of example_secrets) [example_calendar])
                   (log (example_run (consenting example_token) example_fs).1))
    by in_concrete.
  split; [exact Hin|].
  exact (@C2_scopes_calendar_only example_floats string example_calendar
           (consenting example_token) example_fs _ _ Hin).
Defined.

Lemma C3_auth_fault_leaves_token_witness :
  In (EvAuthRaised (LibraryError "access_denied")) (log (example_run denying example_fs).1)
  /\ (example_run denying example_fs).2 = Raise (LibraryError "access_denied")
  /\ files (example_run denying example_fs).1 !! USER_TOKEN = example_fs !! USER_TOKEN.
Proof.
  assert (Hin : In (EvAuthRaised (LibraryError "access_denied"))
                   (log (example_run denying example_fs).1)) by in_concrete.
  split; [exact Hin|].
  destruct (@C3_auth_fault_leaves_token example_floats string example_calendar
              denying example_fs _ Hin) as (Hres & Hfile & _).
  split; [exact Hres|exact Hfile].
Defined.


Lemma C5_overwrite_witness :
  example_fs !! USER_TOKEN = Some (str "OLD TOKEN")
  /\ (example_run (consenting example_token) example_fs).2 = Ok tt
  /\ In (EvReturned example_token)
        (log (example_run (consenting example_token) example_fs).1)
  /\ exists text,
       @json_dumps example_floats example_token = Ok text
       /\ files (example_run (consenting example_token) example_fs).1 !! USER_TOKEN
          = Some text
       /\ files (example_run (consenting example_token)
                   (<[USER_TOKEN := str "SOMETHING ELSE"]> example_fs)).1 !! USER_TOKEN
          = Some text.
Proof.
  assert (Hprior : example_fs !! USER_TOKEN = Some (str "OLD TOKEN")) by (by vm_compute).
  assert (Hok : (example_run (consenting example_token) example_fs).2 = Ok tt)
    by (by vm_compute).
  assert (Hin : In (EvReturned example_token)
                   (log (example_run (consenting example_token) example_fs).1))
    by in_concrete.
  split; [exact Hprior|]. split; [exact Hok|]. split; [exact Hin|].
  destruct (@C5_overwrite example_floats string example_calendar
              (consenting example_token) example_fs _ example_token Hprior Hok Hin)
    as (text & Hdumps & Hfile & Hany & _).
  exists text. split; [exact Hdumps|]. split; [exact Hfile|apply Hany].
Defined.

Lemma C6_default_redirect_witness :
  In (EvManager (manager_of example_secrets))
     (log (example_run (consenting example_token) example_fs).1)
  /\ redirect_uri (manager_of example_secrets) = str "http://localhost:8080"
  /\ uri_host_port (redirect_uri (manager_of example_secrets))
     = Some (str "localhost", 8080).
Proof.
  assert (Hin : In (EvManager (manager_of example_secrets))
                   (log (example_run (consenting example_token) example_fs).1))
    by in_concrete.
  split; [exact Hin|].
  destruct (@C6_default_redirect example_floats string example_calendar
              (consenting example_token) example_fs _ Hin) as (_ & Huri & Hport).
  split; [exact Huri|exact Hport].
Defined.

Lemma C9_dump_fault_truncates_witness :
  In (EvReturned example_token_object)
     (log (example_run (consenting example_token_object) example_fs).1)
  /\ snd (@_iterencode example_floats example_token_object)
     = Some (TypeError "Object is not JSON serializable")
  /\ example_fs !! USER_TOKEN = Some (str "OLD TOKEN")
  /\ (example_run (consenting example_token_object) example_fs).2
     = Raise (TypeError "Object is not JSON serializable")
  /\ files (example_run (consenting example_token_object) example_fs).1 !! USER_TOKEN
     = Some (concat (fst (@_iterencode example_floats example_token_object))).
Proof.
  assert (Hin : In (EvReturned example_token_object)
                   (log (example_run (consenting example_token_object) example_fs).1))
    by in_concrete.
  assert (Hstop : snd (@_iterencode example_floats example_token_object)
                  = Some (TypeError "Object is not JSON serializable")) by (by vm_compute).
  split; [exact Hin|]. split; [exact Hstop|]. split; [by vm_compute|].
  destruct (@C9_dump_fault_truncates example_floats string example_calendar
              (consenting example_token_object) example_fs _ _ Hin Hstop)
    as (Hres & _ & Hfile & _).
  split; [exact Hres|exact Hfile].
Defined.

Lemma C10_deterministic_witness :
  (example_run (consenting example_token_tuple) example_fs).2 = Ok tt
  /\ (example_run (consenting (listify example_token_tuple)) example_fs_fresh).2 = Ok tt
  /\ In (EvReturned example_token_tuple)
        (log (example_run (consenting example_token_tuple) example_fs).1)
  /\ In (EvReturned (listify example_token_tuple))
        (log (example_run (consenting (listify example_token_tuple)) example_fs_fresh).1)
  /\ listify example_token_tuple = listify (listify example_token_tuple)
  /\ files (example_run (consenting example_token_tuple) example_fs).1 !! USER_TOKEN
     = files (example_run (consenting (listify example_token_tuple))
                example_fs_fresh).1 !! USER_TOKEN.
Proof.
  assert (Hok1 : (example_run (consenting example_token_tuple) example_fs).2 = Ok tt)
    by (by vm_compute).
  assert (Hok2 : (example_run (consenting (listify example_token_tuple))
                    example_fs_fresh).2 = Ok tt)
    by (by vm_compute).
  assert (Hin1 : In (EvReturned example_token_tuple)
                    (log (example_run (consenting example_token_tuple) example_fs).1))
    by in_concrete.
  assert (Hin2 : In (EvReturned (listify example_token_tuple))
                    (log (example_run (consenting (listify example_token_tuple))
                            example_fs_fresh).1))
    by in_concrete.
  assert (Hsame : listify example_token_tuple = listify (listify example_token_tuple))
    by reflexivity.
  split; [exact Hok1|]. split; [exact Hok2|]. split; [exact Hin1|]. split; [exact Hin2|].
  split; [exact Hsame|].
  exact (proj1 (@C10_deterministic example_floats string example_calendar _ _ _ _ _ _
                  Hok1 Hok2 Hin1 Hin2 Hsame)).
Defined.

(** What the failing dump of C9 leaves behind: the beginning of a document in
    one case, an empty file in the other. *)
Example dump_fault_partial :
  files (example_run (consenting example_token_object) example_fs).1 !! USER_TOKEN
  = Some (str "{" ++ encode_basestring_ascii (str "token") ++ str ": "
          ++ encode_basestring_ascii (str "ya29.a0") ++ str ", "
          ++ encode_basestring_ascii (str "expiry") ++ str ": ").
Proof. by vm_compute. Qed.

Example dump_fault_empty :
  files (example_run (consenting (PObject "Credentials")) example_fs).1 !! USER_TOKEN
  = Some [].
Proof. by vm_compute. Qed.

(** The edges of the two readings used above. [json.load] takes the
    constants [NaN], [Infinity] and [-Infinity] for valid input; and the
    text written follows the insertion order of a dict. *)
Example json_loads_accepts_nan :
  @json_loads example_floats (str "NaN") = Ok (PFloat SpecFloat.S754_nan).
Proof. by vm_compute. Qed.

Example dump_follows_insertion_order :
  @json_dumps example_floats
    (PDict [(PStr (str "a"), PInt 1); (PStr (str "b"), PInt 2)])
  <> @json_dumps example_floats
       (PDict [(PStr (str "b"), PInt 2); (PStr (str "a"), PInt 1)]).
Proof. vm_compute. discriminate. Qed.

(** The values C1 leaves out are not restored: a key that is no string comes
    back as one, a high surrogate followed by a low one comes back as one
    character, and the [NaN] that comes back is not equal to the one
    written. *)
Example int_key_not_restored :
  @json_dumps example_floats (PDict [(PInt 1, PNone)])
  = Ok (str "{" ++ encode_basestring_ascii (str "1") ++ str ": null}")
  /\ @json_loads example_floats
       (str "{" ++ encode_basestring_ascii (str "1") ++ str ": null}")
     = Ok (PDict [(PStr (str "1"), PNone)]).
Proof. split; vm_compute; reflexivity. Qed.

Example surrogate_pair_not_restored :
  @json_dumps example_floats (PStr [55357; 56832])
  = Ok (encode_basestring_ascii [55357; 56832])
  /\ @json_loads example_floats (encode_basestring_ascii [55357; 56832])
     = Ok (PStr [128512]).
Proof. split; vm_compute; reflexivity. Qed.

Example nan_not_equal :
  @json_dumps example_floats (PFloat SpecFloat.S754_nan) = Ok (str "NaN")
  /\ @json_loads example_floats (str "NaN") = Ok (PFloat SpecFloat.S754_nan)
  /\ py_eq (PFloat SpecFloat.S754_nan) (PFloat SpecFloat.S754_nan) = false.
Proof. repeat split; vm_compute; reflexivity. Qed.

(** Values of different types that are equal are written differently. *)
Example one_equals_true :
  py_eq (PInt 1) (PBool true) = true
  /\ @json_dumps example_floats (PInt 1) = Ok (str "1")
  /\ @json_dumps example_floats (PBool true) = Ok (str "true").
Proof. repeat split; vm_compute; reflexivity. Qed.

(** ** The further properties at concrete runs *)

Lemma X1_secrets_from_credentials_witness :
  In (EvInit example_secrets None)
     (log (example_run (consenting example_token) example_fs).1)
  /\ exists content, example_fs !! CREDENTIALS = Some content
                     /\ @json_loads example_floats content = Ok example_secrets.
Proof.
  assert (Hin : In (EvInit example_secrets None)
                   (log (example_run (consenting example_token) example_fs).1))
    by in_concrete.
  split; [exact Hin|].
  destruct (@X1_secrets_from_credentials example_floats string example_calendar
              (consenting example_token) example_fs _ _ Hin) as (_ & Hsecrets).
  exact Hsecrets.
Defined.

Lemma X2_authenticate_on_constructed_witness :
  In (EvAuthenticate (manager_of example_secrets) [example_calendar])
     (log (example_run (consenting example_token) example_fs).1)
  /\ In (EvManager (manager_of example_secrets))
        (log (example_run (consenting example_token) example_fs).1).
Proof.
  assert (Hin : In (EvAuthenticate (manager_of example_secrets) [example_calendar])
                   (log (example_run (consenting example_token) example_fs).1))
    by in_concrete.
  split; [exact Hin|].
  destruct (@X2_authenticate_on_constructed example_floats string example_calendar
              (consenting example_token) example_fs _ _ Hin) as (Hmanager & _).
  exact Hmanager.
Defined.

Lemma X3_constructor_fault_witness :
  In (EvInitRaised (LibraryError "invalid_client"))
     (log (example_run rejecting example_fs).1)
  /\ (example_run rejecting example_fs).2 = Raise (LibraryError "invalid_client")
  /\ files (example_run rejecting example_fs).1 = example_fs.
Proof.
  assert (Hin : In (EvInitRaised (LibraryError "invalid_client"))
                   (log (example_run rejecting example_fs).1)) by in_concrete.
  split; [exact Hin|].
  destruct (@X3_constructor_fault example_floats string example_calendar
              rejecting example_fs _ Hin) as (Hres & Hfiles & _).
  split; [exact Hres|exact Hfiles].
Defined.

Lemma X9_token_file_ascii_witness :
  (forall x, Forall is_ascii (@float_repr example_floats x))
  /\ In (EvReturned example_token)
        (log (example_run (consenting example_token) example_fs).1)
  /\ exists content,
       files (example_run (consenting example_token) example_fs).1 !! USER_TOKEN
       = Some content
       /\ Forall is_ascii content.
Proof.
  assert (Hrepr : forall x, Forall is_ascii (@float_repr example_floats x))
    by (intros x; repeat constructor).
  assert (Hin : In (EvReturned example_token)
                   (log (example_run (consenting example_token) example_fs).1))
    by in_concrete.
  split; [exact Hrepr|]. split; [exact Hin|].
  exact (@X9_token_file_ascii example_floats string example_calendar
           (consenting example_token) example_fs _ Hrepr Hin).
Defined.

Lemma X10_blank_credentials_witness :
  example_fs_blank !! CREDENTIALS = Some (str "  ")
  /\ forallb is_ws (str "  ") = true
  /\ (example_run (consenting example_token) example_fs_blank).2
     = Raise (JSONDecodeError "Expecting value").
Proof.
  assert (Hfile : example_fs_blank !! CREDENTIALS = Some (str "  ")) by (by vm_compute).
  assert (Hblank : forallb is_ws (str "  ") = true) by (by vm_compute).
  split; [exact Hfile|]. split; [exact Hblank|].
  destruct (@X10_blank_credentials example_floats string example_calendar
              (consenting example_token) example_fs_blank _ Hfile Hblank) as (Hres & _).
  exact Hres.
Defined.

Lemma X11_tuples_read_back_as_lists_witness :
  (example_run (consenting example_token_tuple) example_fs).2 = Ok tt
  /\ In (EvReturned example_token_tuple)
        (log (example_run (consenting example_token_tuple) example_fs).1)
  /\ @json_native example_floats (listify example_token_tuple) = true
  /\ exists text,
       files (example_run (consenting example_token_tuple) example_fs).1 !! USER_TOKEN
       = Some text
       /\ @json_loads example_floats text = Ok (listify example_token_tuple).
Proof.
  assert (Hok : (example_run (consenting example_token_tuple) example_fs).2 = Ok tt)
    by (by vm_compute).
  assert (Hin : In (EvReturned example_token_tuple)
                   (log (example_run (consenting example_token_tuple) example_fs).1))
    by in_concrete.
  assert (Hnative : @json_native example_floats (listify example_token_tuple) = true)
    by (by vm_compute).
  split; [exact Hok|]. split; [exact Hin|]. split; [exact Hnative|].
  exact (@X11_tuples_read_back_as_lists example_floats string example_calendar
           (consenting example_token_tuple) example_fs _ Hok Hin Hnative).
Defined.
